(** * httpdeadline: request deadlines from a header or a query parameter

    A shallow embedding of [deadline.go] (package [httpdeadline]) together
    with the parts of the Go standard library its two adapters call:
    [time.Parse] on the three layouts of [http.ParseTime],
    [http.CanonicalHeaderKey], [http.Header.Get], [url.Values.Has/Get],
    [context.WithDeadline] and [http.ResponseWriter.WriteHeader]. *)

From Stdlib Require Import ZArith String Ascii List Lia Bool.
From stdpp Require Import base option gmap strings list.

Local Open Scope string_scope.
Local Open Scope Z_scope.

(* ===================================================================== *)
(** ** Go strings: byte sequences, indexed and sliced                     *)
(* ===================================================================== *)

Module gostring.

(** [s[i]] as a number. *)
Definition byte (c : ascii) : Z := Z.of_N (N_of_ascii c).

(** [len(s)]. *)
Definition len (s : string) : nat := String.length s.

(** [s[:n]], for [n <= len(s)]. *)
Fixpoint slice_to (n : nat) (s : string) : string :=
  match n, s with
  | S n', String c s' => String c (slice_to n' s')
  | _, _ => EmptyString
  end.

(** [s[n:]], for [n <= len(s)]. *)
Fixpoint slice_from (n : nat) (s : string) : string :=
  match n, s with
  | S n', String _ s' => slice_from n' s'
  | _, _ => s
  end.

(** [s[i]], when [i < len(s)]. *)
Definition at_ (s : string) (i : nat) : option ascii := String.get i s.

Definition is_byte (s : string) (i : nat) (c : ascii) : bool :=
  match at_ s i with
  | Some c' => Ascii.eqb c' c
  | None => false
  end.

End gostring.

(* ===================================================================== *)
(** ** Package time: instants and [Parse] on the layouts of net/http      *)
(* ===================================================================== *)

Module time.
Import gostring.

(** A [time.Time] as the instant it denotes, in nanoseconds since the
    Unix epoch.  The [*Location] a Go [Time] also carries takes no part
    in [Before], [Equal] or [Until], which is all a context does with a
    deadline. *)
Definition Time : Type := Z.

(** [t.Before(u)] *)
Definition Before (t u : Time) : bool := t <? u.

(** [t.Unix()]: whole seconds since the epoch. *)
Definition Unix (t : Time) : Z := t / 1000000000.

(** [t.addSec(d)] *)
Definition addSec (t : Time) (d : Z) : Time := t + d * 1000000000.

(** [time.Until(d)] read against the clock value [now]; Go saturates the
    duration at the ends of int64, which keeps its sign. *)
Definition Until (now d : Time) : Z := d - now.

(** What [Parse] needs of the process's [time.Local]: the offset, in
    seconds east of UTC, that a zone abbreviation has there at a given
    Unix time (the method [lookupName] of a Go [Location]). *)
Record Location : Type := { lookupName : string -> Z -> option Z }.

(** The UTC location has no named zones. *)
Definition UTC : Location := {| lookupName := fun _ _ => None |}.

(** *** Calendar *)

Definition isLeap (year : Z) : bool :=
  (year mod 4 =? 0) && (negb (year mod 100 =? 0) || (year mod 400 =? 0)).

Definition daysBefore : list Z :=
  [0; 31; 59; 90; 120; 151; 181; 212; 243; 273; 304; 334; 365].

Definition daysBeforeMonth (m : Z) : Z := nth (Z.to_nat m) daysBefore 0.

Definition daysIn (m year : Z) : Z :=
  if (m =? 2) && isLeap year then 29
  else daysBeforeMonth m - daysBeforeMonth (m - 1).

(** Leap days in the years [1 .. y]. *)
Definition leapsThrough (y : Z) : Z := y / 4 - y / 100 + y / 400.

(** Days from 1970-01-01 to January 1st of [year]. *)
Definition daysSinceEpoch (year : Z) : Z :=
  365 * (year - 1970) + (leapsThrough (year - 1) - leapsThrough 1969).

(** [time.Date(year, month, day, hour, min, sec, nsec, time.UTC)] for
    fields already in range, which is how [Parse] calls it. *)
Definition Date (year month day hour min sec nsec : Z) : Time :=
  let d := daysSinceEpoch year + daysBeforeMonth (month - 1)
           + (if isLeap year && (3 <=? month) then 1 else 0)
           + (day - 1) in
  (d * 86400 + hour * 3600 + min * 60 + sec) * 1000000000 + nsec.

(** *** Layouts

    [Parse] walks a layout chunk by chunk ([nextStdChunk]): some literal
    text, then one element.  The three layouts net/http accepts are kept
    here already split that way. *)

Inductive std : Type :=
| stdLongWeekDay   (* Monday *)
| stdWeekDay       (* Mon *)
| stdZeroDay       (* 02 *)
| stdUnderDay      (* _2 *)
| stdMonth         (* Jan *)
| stdYear          (* 06 *)
| stdLongYear      (* 2006 *)
| stdHour          (* 15 *)
| stdZeroMinute    (* 04 *)
| stdZeroSecond    (* 05 *)
| stdTZ.           (* MST *)

Record Layout : Type := { chunks : list (string * std); trailer : string }.

(** [time.RFC850 = "Monday, 02-Jan-06 15:04:05 MST"] *)
Definition RFC850 : Layout :=
  {| chunks := [("", stdLongWeekDay); (", ", stdZeroDay); ("-", stdMonth);
                ("-", stdYear); (" ", stdHour); (":", stdZeroMinute);
                (":", stdZeroSecond); (" ", stdTZ)];
     trailer := "" |}.

(** [time.ANSIC = "Mon Jan _2 15:04:05 2006"] *)
Definition ANSIC : Layout :=
  {| chunks := [("", stdWeekDay); (" ", stdMonth); (" ", stdUnderDay);
                (" ", stdHour); (":", stdZeroMinute); (":", stdZeroSecond);
                (" ", stdLongYear)];
     trailer := "" |}.

Definition shortDayNames : list string :=
  ["Sun"; "Mon"; "Tue"; "Wed"; "Thu"; "Fri"; "Sat"].
Definition longDayNames : list string :=
  ["Sunday"; "Monday"; "Tuesday"; "Wednesday"; "Thursday"; "Friday";
   "Saturday"].
Definition shortMonthNames : list string :=
  ["Jan"; "Feb"; "Mar"; "Apr"; "May"; "Jun"; "Jul"; "Aug"; "Sep"; "Oct";
   "Nov"; "Dec"].

(** *** Scanning helpers of format.go *)

Definition isDigitByte (c : ascii) : bool :=
  (48 <=? byte c) && (byte c <=? 57).

(** [isDigit(s, i)] *)
Definition isDigit (s : string) (i : nat) : bool :=
  match at_ s i with
  | Some c => isDigitByte c
  | None => false
  end.

Definition commaOrPeriod (c : ascii) : bool :=
  Ascii.eqb c "." || Ascii.eqb c ",".

(** [match(s1, s2)]: equal up to ASCII letter case; [s2] is at least as
    long as [s1]. *)
Fixpoint match_ (s1 s2 : string) : bool :=
  match s1, s2 with
  | String c1 r1, String c2 r2 =>
      (if Ascii.eqb c1 c2 then true
       else
         let l1 := Z.lor (byte c1) 32 in
         let l2 := Z.lor (byte c2) 32 in
         (l1 =? l2) && (97 <=? l1) && (l1 <=? 122))
      && match_ r1 r2
  | EmptyString, _ => true
  | String _ _, EmptyString => false
  end.

(** [lookup(tab, val)]: index of the first name that [val] starts with. *)
Fixpoint lookup_from (i : Z) (tab : list string) (val : string)
  : option (Z * string) :=
  match tab with
  | [] => None
  | v :: tab' =>
      if (len v <=? len val)%nat && match_ (slice_to (len v) val) v
      then Some (i, slice_from (len v) val)
      else lookup_from (i + 1) tab' val
  end.

Definition lookup (tab : list string) (val : string) : option (Z * string) :=
  lookup_from 0 tab val.

(** [getnum(s, fixed)]: one or two digits, exactly two when [fixed]. *)
Definition getnum (s : string) (fixed : bool) : option (Z * string) :=
  match s with
  | String c0 r0 =>
      if isDigitByte c0 then
        match r0 with
        | String c1 r1 =>
            if isDigitByte c1
            then Some ((byte c0 - 48) * 10 + (byte c1 - 48), r1)
            else if fixed then None else Some (byte c0 - 48, r0)
        | EmptyString => if fixed then None else Some (byte c0 - 48, r0)
        end
      else None
  | EmptyString => None
  end.

(** [leadingInt(s)]: the leading digits as a number and the rest; an
    error past 2^63. *)
Fixpoint leadingInt_from (x : Z) (s : string) : option (Z * string) :=
  match s with
  | String c r =>
      if isDigitByte c then
        if 2 ^ 63 / 10 <? x then None
        else
          let x' := x * 10 + byte c - 48 in
          if 2 ^ 63 <? x' then None else leadingInt_from x' r
      else Some (x, s)
  | EmptyString => Some (x, s)
  end.

Definition leadingInt (s : string) : option (Z * string) :=
  leadingInt_from 0 s.

(** [atoi(s)]: an optional sign, then digits to the end of [s]. *)
Definition atoi (s : string) : option Z :=
  let '(neg, s) :=
    match s with
    | String c r =>
        if Ascii.eqb c "-" then (true, r)
        else if Ascii.eqb c "+" then (false, r)
        else (false, s)
    | EmptyString => (false, s)
    end in
  match leadingInt s with
  | Some (q, EmptyString) => Some (if neg then - q else q)
  | _ => None
  end.

(** [cutspace(s)] *)
Fixpoint cutspace (s : string) : string :=
  match s with
  | String c r => if Ascii.eqb c " " then cutspace r else s
  | EmptyString => s
  end.

(** [skip(value, prefix)]: literal text of the layout must be next in the
    value; a run of spaces of the layout stands for any run of spaces of
    the value. *)
Fixpoint skip_fuel (fuel : nat) (value pfx : string) : option string :=
  match fuel with
  | O => None
  | S fuel' =>
      match pfx with
      | EmptyString => Some value
      | String p pfx' =>
          if Ascii.eqb p " " then
            match value with
            | String v _ =>
                if Ascii.eqb v " "
                then skip_fuel fuel' (cutspace value) (cutspace pfx)
                else None
            | EmptyString => skip_fuel fuel' (cutspace value) (cutspace pfx)
            end
          else
            match value with
            | String v value' =>
                if Ascii.eqb v p then skip_fuel fuel' value' pfx' else None
            | EmptyString => None
            end
      end
  end.

(** Each round of the loop of [skip] shortens [prefix], so its length
    and one more round bound the loop. *)
Definition skip (value pfx : string) : option string :=
  skip_fuel (S (len pfx)) value pfx.

(** [parseNanoseconds(value, nbytes)] on a value that starts with a comma
    or period followed by [nbytes - 1] digits: at most nine digits count. *)
Definition parseNanoseconds (value : string) (nbytes : nat) : option Z :=
  let nbytes := Nat.min nbytes 10 in
  match atoi (slice_from 1 (slice_to nbytes value)) with
  | Some ns => Some (ns * 10 ^ Z.of_nat (10 - nbytes))
  | None => None
  end.

(** Number of leading bytes of [s] that satisfy [p], at most [limit]. *)
Fixpoint span (p : ascii -> bool) (limit : nat) (s : string) : nat :=
  match limit, s with
  | S limit', String c r => if p c then S (span p limit' r) else O
  | _, _ => O
  end.

(** [parseSignedOffset(value)]: length of a sign and an hour up to 23, or
    zero. *)
Definition parseSignedOffset (value : string) : nat :=
  match value with
  | String sign r =>
      if Ascii.eqb sign "-" || Ascii.eqb sign "+" then
        match leadingInt r with
        | Some (x, rem) =>
            if (len rem =? len r)%nat then O
            else if 23 <? x then O
            else (len value - len rem)%nat
        | None => O
        end
      else O
  | EmptyString => O
  end.

(** [parseGMT(value)] *)
Definition parseGMT (value : string) : nat :=
  let value := slice_from 3 value in
  if (len value =? 0)%nat then 3%nat
  else (3 + parseSignedOffset value)%nat.

Definition isUpper (c : ascii) : bool := (65 <=? byte c) && (byte c <=? 90).

(** [parseTimeZone(value)]: length of the zone abbreviation [value]
    starts with. *)
Definition parseTimeZone (value : string) : option nat :=
  if (len value <? 3)%nat then None
  else if (4 <=? len value)%nat
          && (String.eqb (slice_to 4 value) "ChST"
              || String.eqb (slice_to 4 value) "MeST") then Some 4%nat
  else if String.eqb (slice_to 3 value) "GMT" then Some (parseGMT value)
  else if is_byte value 0 "+" || is_byte value 0 "-" then
    let length := parseSignedOffset value in
    if (0 <? length)%nat then Some length else None
  else
    match span isUpper 6 value with
    | 5%nat => if is_byte value 4 "T" then Some 5%nat else None
    | 4%nat =>
        if is_byte value 3 "T" || String.eqb (slice_to 4 value) "WITA"
        then Some 4%nat else None
    | 3%nat => Some 3%nat
    | _ => None
    end.

(** *** The fields [Parse] collects *)

Record fields : Type := {
  year : Z; month : Z; day : Z;
  hour : Z; min : Z; sec : Z; nsec : Z;
  z_utc : bool;          (* [z = UTC] *)
  zoneName : string
}.

Definition fields0 : fields :=
  {| year := 0; month := -1; day := -1; hour := 0; min := 0; sec := 0;
     nsec := 0; z_utc := false; zoneName := "" |}.

(** One arm of the [switch std & stdMask] of [parse]: the element read
    off the front of [value], or [None] for [errBad] and for a field out
    of range. *)
Definition parseStd (s : std) (value : string) (f : fields)
  : option (fields * string) :=
  match s with
  | stdYear =>
      if (len value <? 2)%nat then None
      else
        match atoi (slice_to 2 value) with
        | Some y =>
            let y := if 69 <=? y then y + 1900 else y + 2000 in
            Some ({| year := y; month := month f; day := day f;
                     hour := hour f; min := min f; sec := sec f;
                     nsec := nsec f; z_utc := z_utc f;
                     zoneName := zoneName f |}, slice_from 2 value)
        | None => None
        end
  | stdLongYear =>
      if (len value <? 4)%nat || negb (isDigit value 0) then None
      else
        match atoi (slice_to 4 value) with
        | Some y =>
            Some ({| year := y; month := month f; day := day f;
                     hour := hour f; min := min f; sec := sec f;
                     nsec := nsec f; z_utc := z_utc f;
                     zoneName := zoneName f |}, slice_from 4 value)
        | None => None
        end
  | stdMonth =>
      match lookup shortMonthNames value with
      | Some (m, value) =>
          Some ({| year := year f; month := m + 1; day := day f;
                   hour := hour f; min := min f; sec := sec f;
                   nsec := nsec f; z_utc := z_utc f;
                   zoneName := zoneName f |}, value)
      | None => None
      end
  | stdWeekDay =>
      (* the weekday is read and otherwise ignored *)
      match lookup shortDayNames value with
      | Some (_, value) => Some (f, value)
      | None => None
      end
  | stdLongWeekDay =>
      match lookup longDayNames value with
      | Some (_, value) => Some (f, value)
      | None => None
      end
  | stdZeroDay | stdUnderDay =>
      let value :=
        match s, value with
        | stdUnderDay, String c r => if Ascii.eqb c " " then r else value
        | _, _ => value
        end in
      (* any one- or two-digit day passes here; the date is validated
         once the whole value is read *)
      match getnum value (match s with stdZeroDay => true | _ => false end) with
      | Some (d, value) =>
          Some ({| year := year f; month := month f; day := d;
                   hour := hour f; min := min f; sec := sec f;
                   nsec := nsec f; z_utc := z_utc f;
                   zoneName := zoneName f |}, value)
      | None => None
      end
  | stdHour =>
      match getnum value false with
      | Some (h, value) =>
          if (h <? 0) || (24 <=? h) then None
          else
            Some ({| year := year f; month := month f; day := day f;
                     hour := h; min := min f; sec := sec f;
                     nsec := nsec f; z_utc := z_utc f;
                     zoneName := zoneName f |}, value)
      | None => None
      end
  | stdZeroMinute =>
      match getnum value true with
      | Some (m, value) =>
          if (m <? 0) || (60 <=? m) then None
          else
            Some ({| year := year f; month := month f; day := day f;
                     hour := hour f; min := m; sec := sec f;
                     nsec := nsec f; z_utc := z_utc f;
                     zoneName := zoneName f |}, value)
      | None => None
      end
  | stdZeroSecond =>
      match getnum value true with
      | Some (s, value) =>
          if (s <? 0) || (60 <=? s) then None
          else
            (* a fractional second in the value is read although none of
               these layouts has one *)
            if (2 <=? len value)%nat
               && match at_ value 0 with
                  | Some c => commaOrPeriod c
                  | None => false
                  end
               && isDigit value 1
            then
              let n := (2 + span isDigitByte (len value) (slice_from 2 value))%nat in
              match parseNanoseconds value n with
              | Some ns =>
                  Some ({| year := year f; month := month f; day := day f;
                           hour := hour f; min := min f; sec := s;
                           nsec := ns; z_utc := z_utc f;
                           zoneName := zoneName f |}, slice_from n value)
              | None => None
              end
            else
              Some ({| year := year f; month := month f; day := day f;
                       hour := hour f; min := min f; sec := s;
                       nsec := nsec f; z_utc := z_utc f;
                       zoneName := zoneName f |}, value)
      | None => None
      end
  | stdTZ =>
      if (3 <=? len value)%nat && String.eqb (slice_to 3 value) "UTC" then
        Some ({| year := year f; month := month f; day := day f;
                 hour := hour f; min := min f; sec := sec f;
                 nsec := nsec f; z_utc := true;
                 zoneName := zoneName f |}, slice_from 3 value)
      else
        match parseTimeZone value with
        | Some n =>
            Some ({| year := year f; month := month f; day := day f;
                     hour := hour f; min := min f; sec := sec f;
                     nsec := nsec f; z_utc := z_utc f;
                     zoneName := slice_to n value |}, slice_from n value)
        | None => None
        end
  end.

(** The loop of [parse], one round per element of the layout. *)
Fixpoint parseChunks (cs : list (string * std)) (value : string) (f : fields)
  : option (fields * string) :=
  match cs with
  | [] => Some (f, value)
  | (pfx, s) :: cs' =>
      match skip value pfx with
      | Some value =>
          match parseStd s value f with
          | Some (f', value') => parseChunks cs' value' f'
          | None => None
          end
      | None => None
      end
  end.

(** [time.Parse(layout, value)], which is
    [parse(layout, value, UTC, Local)] with [local] the process's
    [time.Local]; [None] stands for the
    [*ParseError]. *)
Definition Parse (local : Location) (layout : Layout) (value : string)
  : option Time :=
  match parseChunks (chunks layout) value fields0 with
  | Some (f, value) =>
      match skip value (trailer layout) with
      | Some EmptyString =>
          if (day f <? 1) || (daysIn (month f) (year f) <? day f) then None
          else
            let t := Date (year f) (month f) (day f)
                          (hour f) (min f) (sec f) (nsec f) in
            if z_utc f then Some t
            else if negb (String.eqb (zoneName f) "") then
              match lookupName local (zoneName f) (Unix t) with
              | Some offset => Some (addSec t (- offset))
              | None =>
                  (* a fabricated zone: the wall clock reading is kept
                     as if it were UTC *)
                  Some t
              end
            else Some t
      | _ => None   (* extra text *)
      end
  | None => None
  end.

End time.


(* ===================================================================== *)
(** ** Package context: deadlines and cancellation                        *)
(* ===================================================================== *)

Module context.
Import time.

(** [context.Canceled] and [context.DeadlineExceeded]. *)
Inductive error : Type := Canceled | DeadlineExceeded.

(** The contexts the package's constructors build.  A [cancelCtx] or
    [timerCtx] is a heap object; [id] is its identity. *)
Inductive Context : Type :=
| backgroundCtx
| valueCtx (parent : Context) (key val : string)
| cancelCtx (id : nat) (parent : Context)
| timerCtx (id : nat) (parent : Context) (deadline : Time).

(** What is mutable about contexts, and the clock [WithDeadline] reads. *)
Record State : Type := {
  now : Time;             (* [time.Now()] *)
  done : gmap nat error;  (* [err] of the contexts cancelled so far *)
  fresh : nat             (* the next identity to hand out *)
}.

(** [ctx.Deadline()]: only a [timerCtx] has one of its own. *)
Fixpoint Deadline (c : Context) : option Time :=
  match c with
  | backgroundCtx => None
  | valueCtx parent _ _ => Deadline parent
  | cancelCtx _ parent => Deadline parent
  | timerCtx _ _ d => Some d
  end.

(** [ctx.Err()].  Cancelling a context cancels the contexts derived from
    it, and a context derived from a cancelled one starts out cancelled
    ([propagateCancel]): a context without an error of its own reports
    its parent's. *)
Fixpoint Err (s : State) (c : Context) : option error :=
  match c with
  | backgroundCtx => None
  | valueCtx parent _ _ => Err s parent
  | cancelCtx id parent | timerCtx id parent _ =>
      match done s !! id with
      | Some e => Some e
      | None => Err s parent
      end
  end.

Definition parentOf (c : Context) : option Context :=
  match c with
  | backgroundCtx => None
  | valueCtx parent _ _ | cancelCtx _ parent | timerCtx _ parent _ =>
      Some parent
  end.

Definition idOf (c : Context) : option nat :=
  match c with
  | cancelCtx id _ | timerCtx id _ _ => Some id
  | _ => None
  end.

(** [c.cancel(removeFromParent, err, cause)]: the first error sticks,
    a second call does nothing. *)
Definition cancel (c : Context) (err : error) (s : State) : State :=
  match Err s c, idOf c with
  | None, Some id =>
      {| now := now s; done := <[id := err]> (done s); fresh := fresh s |}
  | _, _ => s
  end.

(** A [context.CancelFunc]. *)
Definition CancelFunc : Type := State -> State.

(** [context.WithCancel(parent)] *)
Definition WithCancel (parent : Context) (s : State)
  : Context * CancelFunc * State :=
  let c := cancelCtx (fresh s) parent in
  (c, cancel c Canceled,
   {| now := now s; done := done s; fresh := S (fresh s) |}).

(** [context.WithDeadline(parent, d)].  The timer that cancels the
    context when [d] comes is the runtime's and is not part of this
    model; a deadline that has already passed cancels at once. *)
Definition WithDeadline (parent : Context) (d : Time) (s : State)
  : Context * CancelFunc * State :=
  let sooner :=
    match Deadline parent with
    | Some cur => Before cur d
    | None => false
    end in
  if sooner then
    (* the current deadline is already sooner than the new one *)
    WithCancel parent s
  else
    let c := timerCtx (fresh s) parent d in
    let s := {| now := now s; done := done s; fresh := S (fresh s) |} in
    let dur := Until (now s) d in
    if dur <=? 0
    then (c, cancel c Canceled, cancel c DeadlineExceeded s)
    else (c, cancel c Canceled, s).

End context.

(* ===================================================================== *)
(** ** Packages net/textproto, net/url and net/http                       *)
(* ===================================================================== *)

Module http.
Import gostring time.

(** [http.StatusBadRequest] *)
Definition StatusBadRequest : Z := 400.

(** [http.TimeFormat = "Mon, 02 Jan 2006 15:04:05 GMT"]; the letters GMT
    are literal text of the layout. *)
Definition TimeFormat : Layout :=
  {| chunks := [("", stdWeekDay); (", ", stdZeroDay); (" ", stdMonth);
                (" ", stdLongYear); (" ", stdHour); (":", stdZeroMinute);
                (":", stdZeroSecond)];
     trailer := " GMT" |}.

Definition timeFormats : list Layout := [TimeFormat; RFC850; ANSIC].

(** The loop of [http.ParseTime]: the first layout that parses wins. *)
Fixpoint parseFirst (local : Location) (layouts : list Layout) (text : string)
  : option Time :=
  match layouts with
  | [] => None
  | layout :: rest =>
      match Parse local layout text with
      | Some t => Some t
      | None => parseFirst local rest text
      end
  end.

(** [http.ParseTime(text)]; [None] stands for a non-nil [err]. *)
Definition ParseTime (local : Location) (text : string) : option Time :=
  parseFirst local timeFormats text.

(** *** Header keys *)

Definition isLower (c : ascii) : bool := (97 <=? byte c) && (byte c <=? 122).

Fixpoint mem_byte (c : ascii) (s : string) : bool :=
  match s with
  | String c' r => Ascii.eqb c c' || mem_byte c r
  | EmptyString => false
  end.

(** [validHeaderFieldByte(c)]: the token characters of RFC 7230. *)
Definition validHeaderFieldByte (c : ascii) : bool :=
  isLower c || isUpper c || isDigitByte c || mem_byte c "!#$%&'*+-.^_`|~".

Fixpoint allValid (s : string) : bool :=
  match s with
  | String c r => validHeaderFieldByte c && allValid r
  | EmptyString => true
  end.

Definition shift (c : ascii) (by_ : Z) : ascii :=
  ascii_of_N (Z.to_N (byte c + by_)).

(** One byte of the second loop of [canonicalMIMEHeaderKey]. *)
Definition canonByte (upper : bool) (c : ascii) : ascii :=
  if upper && isLower c then shift c (-32)
  else if negb upper && isUpper c then shift c 32
  else c.

(** The second loop of [canonicalMIMEHeaderKey]: upper case for the
    first letter and after each dash, lower case elsewhere. *)
Fixpoint canonicalize (upper : bool) (a : string) : string :=
  match a with
  | String c r =>
      let c := canonByte upper c in
      String c (canonicalize (Ascii.eqb c "-") r)
  | EmptyString => EmptyString
  end.

(** [textproto.CanonicalMIMEHeaderKey(s)]: a key with a byte that is not
    a token character is returned as it is. *)
Definition CanonicalMIMEHeaderKey (s : string) : string :=
  if allValid s then canonicalize true s else s.

(** [http.CanonicalHeaderKey(s)] *)
Definition CanonicalHeaderKey (s : string) : string :=
  CanonicalMIMEHeaderKey s.

(** [http.Header] and [url.Values] are both [map[string][]string]. *)
Definition first (v : list string) : string :=
  match v with
  | [] => ""
  | x :: _ => x
  end.

(** [Header.Get(key)]: the first value under the canonical key. *)
Definition Header_Get (h : gmap string (list string)) (key : string) : string :=
  match h !! CanonicalMIMEHeaderKey key with
  | Some v => first v
  | None => ""
  end.

(** [Header.Add(key, value)] *)
Definition Header_Add (h : gmap string (list string)) (key value : string)
  : gmap string (list string) :=
  let key := CanonicalMIMEHeaderKey key in
  <[key := (default [] (h !! key) ++ [value])%list]> h.

(** [Header.Set(key, value)] *)
Definition Header_Set (h : gmap string (list string)) (key value : string)
  : gmap string (list string) :=
  <[CanonicalMIMEHeaderKey key := [value]]> h.

(** [Values.Has(key)] *)
Definition Values_Has (v : gmap string (list string)) (key : string) : bool :=
  match v !! key with
  | Some _ => true
  | None => false
  end.

(** [Values.Get(key)] *)
Definition Values_Get (v : gmap string (list string)) (key : string) : string :=
  match v !! key with
  | Some vs => first vs
  | None => ""
  end.

(** [url.URL], as far as the adapter reads it: [Query] is the map that
    the method [URL.Query()] parses out of [RawQuery]. *)
Record URL : Type := { Query : gmap string (list string) }.

(** [http.Request] *)
Record Request : Type := {
  Header : gmap string (list string);
  URL_ : URL;
  ctx : option context.Context
}.

(** [req.Context()] *)
Definition Context (r : Request) : context.Context :=
  match ctx r with
  | Some c => c
  | None => context.backgroundCtx
  end.

(** [req.WithContext(ctx)]: a shallow copy with the context replaced. *)
Definition WithContext (r : Request) (c : context.Context) : Request :=
  {| Header := Header r; URL_ := URL_ r; ctx := Some c |}.

(** What a handler can do to its [http.ResponseWriter]. *)
Inductive ResponseOp : Type :=
| OpWriteHeader (statusCode : Z)
| OpWrite (body : string)
| OpSetHeader (key value : string).

End http.

(* ===================================================================== *)
(** ** Package httpdeadline                                               *)
(* ===================================================================== *)

Module httpdeadline.
Import time http.

(** What serving one request can change: the response written so far
    through the [http.ResponseWriter] (oldest first), and the contexts. *)
Record World : Type := {
  response : list ResponseOp;
  contexts : context.State
}.

(** How a call ends: it returns, or it panics. *)
Inductive result (A : Type) : Type :=
| Returned (a : A)
| Panicked (v : string).
Arguments Returned {A} a.
Arguments Panicked {A} v.

(** An [http.Handler]: [ServeHTTP(w, req)], with [w] the response of the
    world it runs in.  The wrapped handler is any such function. *)
Definition Handler : Type := Request -> World -> result unit * World.

(** The calls an adapter makes, in the order it makes them. *)
Inductive Event : Type :=
| Called (req : Request)                  (* [h.ServeHTTP(w, req)] *)
| Wrote (statusCode : Z)                  (* [w.WriteHeader(statusCode)] *)
| Derived (parent : context.Context) (d : Time) (child : context.Context)
                                          (* [context.WithDeadline(parent, d)] *)
| Released (c : context.Context).         (* [cancel()] *)

(** Code of the adapter: a world transformer that may panic and that
    leaves a trace of its calls. *)
Definition M (A : Type) : Type := World -> result A * World * list Event.

(** Statements in sequence: a panic skips what follows. *)
Definition bind {A B} (m : M A) (k : A -> M B) : M B :=
  fun w =>
    match m w with
    | (Returned a, w1, t1) =>
        let '(r, w2, t2) := k a w1 in (r, w2, (t1 ++ t2)%list)
    | (Panicked v, w1, t1) => (Panicked v, w1, t1)
    end.

(** [defer d()] in front of [body]: [d] runs when [body] has returned
    and also when it has panicked, and the panic then goes on. *)
Definition defer_ {A} (d : M unit) (body : M A) : M A :=
  fun w =>
    let '(r, w1, t1) := body w in
    let '(rd, w2, t2) := d w1 in
    (match rd with
     | Returned _ => r
     | Panicked v => Panicked v
     end, w2, (t1 ++ t2)%list).

(** [h.ServeHTTP(w, req)] *)
Definition ServeHTTP (h : Handler) (req : Request) : M unit :=
  fun w => let '(r, w1) := h req w in (r, w1, [Called req]).

(** [w.WriteHeader(statusCode)] *)
Definition WriteHeader (statusCode : Z) : M unit :=
  fun w =>
    (Returned tt,
     {| response := (response w ++ [OpWriteHeader statusCode])%list;
        contexts := contexts w |},
     [Wrote statusCode]).

(** [ctx, cancel := context.WithDeadline(parent, d)] *)
Definition WithDeadline (parent : context.Context) (d : Time)
  : M (context.Context * context.CancelFunc) :=
  fun w =>
    let '(c, cancel, s) := context.WithDeadline parent d (contexts w) in
    (Returned (c, cancel), {| response := response w; contexts := s |},
     [Derived parent d c]).

(** [cancel()], for the [cancel] that came with [c]. *)
Definition call (cancel : context.CancelFunc) (c : context.Context) : M unit :=
  fun w =>
    (Returned tt,
     {| response := response w; contexts := cancel (contexts w) |},
     [Released c]).

Section Adapters.

(** The process's [time.Local], which [time.Parse] consults for zone
    abbreviations. *)
Variable tzLocal : Location.

(** [FromHeader(name, h)] *)
Definition FromHeader (name : string) (h : Handler) : Request -> M unit :=
  fun req =>
    match Header req !! CanonicalHeaderKey name with
    | None => ServeHTTP h req
    | Some _ =>
        let val := Header_Get (Header req) name in
        match String.eqb val "", ParseTime tzLocal val with
        | false, Some time =>
            bind (WithDeadline (Context req) time) (fun '(ctx, cancel) =>
            defer_ (call cancel ctx)
                   (ServeHTTP h (WithContext req ctx)))
        | _, _ =>
            (* [val == "" || err != nil] *)
            WriteHeader StatusBadRequest
        end
    end.

(** [FromQueryParams(name, h)] *)
Definition FromQueryParams (name : string) (h : Handler) : Request -> M unit :=
  fun req =>
    if negb (Values_Has (Query (URL_ req)) name) then ServeHTTP h req
    else
      let val := Values_Get (Query (URL_ req)) name in
      match String.eqb val "", ParseTime tzLocal val with
      | false, Some time =>
          bind (WithDeadline (Context req) time) (fun '(ctx, cancel) =>
          defer_ (call cancel ctx)
                 (ServeHTTP h (WithContext req ctx)))
      | _, _ =>
          (* [val == "" || err != nil] *)
          WriteHeader StatusBadRequest
      end.

End Adapters.

(** An adapter is itself an [http.Handler]: what it did is forgotten. *)
Definition asHandler (a : Request -> M unit) : Handler :=
  fun req w => let '(r, w1, _) := a req w in (r, w1).

End httpdeadline.

(* ===================================================================== *)
(** ** Vocabulary of the specification                                    *)
(* ===================================================================== *)

Import time http httpdeadline.

(** Where an adapter reads the named field from. *)
Inductive Source : Type := InHeader | InQuery.

Definition adapter (tz : Location) (src : Source)
  : string -> Handler -> Request -> M unit :=
  match src with
  | InHeader => FromHeader tz
  | InQuery => FromQueryParams tz
  end.

(** The named field is set on the request. *)
Definition present (src : Source) (name : string) (req : Request) : bool :=
  match src with
  | InHeader =>
      match Header req !! CanonicalHeaderKey name with
      | Some _ => true
      | None => false
      end
  | InQuery => Values_Has (Query (URL_ req)) name
  end.

(** The string the adapter reads for the named field. *)
Definition value (src : Source) (name : string) (req : Request) : string :=
  match src with
  | InHeader => Header_Get (Header req) name
  | InQuery => Values_Get (Query (URL_ req)) name
  end.

(** Some accepted layout parses the text. *)
Definition parses (tz : Location) (text : string) : Prop :=
  exists layout, In layout timeFormats /\ is_Some (Parse tz layout text).

(** The three components of a run. *)
Definition outcome (out : result unit * World * list Event) : result unit :=
  out.1.1.
Definition world (out : result unit * World * list Event) : World :=
  out.1.2.
Definition trace (out : result unit * World * list Event) : list Event :=
  out.2.

(** Requests the wrapped handler was called with. *)
Definition calls (tr : list Event) : list Request :=
  omap (fun e => match e with Called req => Some req | _ => None end) tr.

(** Status codes the adapter wrote. *)
Definition writes (tr : list Event) : list Z :=
  omap (fun e => match e with Wrote code => Some code | _ => None end) tr.


(** Contexts whose cancel function the adapter called. *)
Definition releases (tr : list Event) : list context.Context :=
  omap (fun e => match e with Released c => Some c | _ => None end) tr.

(** The earlier of an optional deadline and [d]: what [Deadline] reports
    on the context [WithDeadline] returns. *)
Definition capped (cur : option Time) (d : Time) : Time :=
  match cur with
  | Some cur => if Before cur d then cur else d
  | None => d
  end.




(** Every key of a header map is in canonical form, as the request parser
    of net/http and [Header.Set]/[Header.Add] leave it. *)
Definition keys_canonical (h : gmap string (list string)) : Prop :=
  forall k, is_Some (h !! k) -> CanonicalHeaderKey k = k.


(** The instant of the tests, [time.Date(2024, 7, 22, 20, 10, 0, 0, time.UTC)]. *)
Definition fixture : Time := Date 2024 7 22 20 10 0 0.
Definition fixtureTimeFormat : string := "Mon, 22 Jul 2024 20:10:00 GMT".
Definition fixtureRFC850 : string := "Monday, 22-Jul-24 20:10:00 GMT".
Definition fixtureANSIC : string := "Mon Jul 22 20:10:00 2024".

(** GMT has offset zero where the local zone knows the abbreviation. *)
Definition gmt_is_utc (tz : Location) : Prop :=
  forall unix, lookupName tz "GMT" unix = None \/ lookupName tz "GMT" unix = Some 0.

(** Sample data for the examples below. *)
Definition spy : Handler := fun _ w => (Returned tt, w).
Definition crash : Handler := fun _ w => (Panicked "boom", w).
Definition world0 : World :=
  {| response := [];
     contexts := {| context.now := Date 2024 7 22 20 0 0 0;
                    context.done := ∅; context.fresh := 0 |} |}.
Definition headerRequest (key val : string) (c : option context.Context) : Request :=
  {| Header := {[ key := [val] ]}; URL_ := {| Query := ∅ |}; ctx := c |}.
Definition queryRequest (key val : string) (c : option context.Context) : Request :=
  {| Header := ∅; URL_ := {| Query := {[ key := [val] ]} |}; ctx := c |}.
Definition bareRequest : Request :=
  {| Header := ∅; URL_ := {| Query := ∅ |}; ctx := None |}.

(** The status the client gets: the first one written, and 200 when the
    handler wrote none, as net/http fills in. *)
Fixpoint statusOf (resp : list ResponseOp) : Z :=
  match resp with
  | [] => 200
  | OpWriteHeader statusCode :: _ => statusCode
  | OpWrite _ :: _ => 200
  | OpSetHeader _ _ :: resp' => statusOf resp'
  end.

(** What the tests look at: the status of the response, and the deadline
    of the context of each call the spy handler receives, for a request
    that arrives from the server with the field set to [texts]. *)
Definition observe (src : Source) (name : string) (texts : option string)
  : Z * list (option Time) :=
  let req :=
    match texts, src with
    | None, _ => bareRequest
    | Some text, InHeader =>
        {| Header := Header_Add ∅ name text; URL_ := {| Query := ∅ |};
           ctx := None |}
    | Some text, InQuery => queryRequest name text None
    end in
  let out := adapter UTC src name spy req world0 in
  (statusOf (response (world out)),
   map (fun r => context.Deadline (Context r)) (calls (trace out))).

(** *** Adapters wrapped around adapters, raw entries, identities *)

(** [outer(name1, inner(name2, h))]: an adapter is a handler, so adapters
    nest. *)
Definition chain (tz : Location) (src1 : Source) (name1 : string)
  (src2 : Source) (name2 : string) (h : Handler) : Request -> M unit :=
  adapter tz src1 name1 (asHandler (adapter tz src2 name2 h)).


(** Every identity inside a context was handed out before [n]. *)
Fixpoint ids_below (n : nat) (c : context.Context) : bool :=
  match c with
  | context.backgroundCtx => true
  | context.valueCtx parent _ _ => ids_below n parent
  | context.cancelCtx id parent | context.timerCtx id parent _ =>
      (id <? n)%nat && ids_below n parent
  end.

(** ASCII lower case of a byte and of a string. *)
Definition lowerByte (c : ascii) : ascii :=
  if isUpper c then shift c 32 else c.

Fixpoint toLower (s : string) : string :=
  match s with
  | String c r => String (lowerByte c) (toLower r)
  | EmptyString => EmptyString
  end.

(* ===================================================================== *)
(** ** Package net/url: the query of a request                            *)
(* ===================================================================== *)
Module url.
Import gostring time.

(** [ishex(c)] *)
Definition ishex (c : ascii) : bool :=
  isDigitByte c
  || ((97 <=? byte c) && (byte c <=? 102))
  || ((65 <=? byte c) && (byte c <=? 70)).

(** [unhex(c)] *)
Definition unhex (c : ascii) : Z :=
  if isDigitByte c then byte c - 48
  else if (97 <=? byte c) && (byte c <=? 102) then byte c - 97 + 10
  else if (65 <=? byte c) && (byte c <=? 70) then byte c - 65 + 10
  else 0.

(** The first loop of [unescape]: every percent sign is followed by two
    hexadecimal digits. *)
Fixpoint wellFormed (s : string) : bool :=
  match s with
  | String c r =>
      if Ascii.eqb c "%" then
        match r with
        | String h1 (String h2 r') => ishex h1 && ishex h2 && wellFormed r'
        | _ => false
        end
      else wellFormed r
  | EmptyString => true
  end.

(** The second loop of [unescape] in the mode of a query component: an
    escape becomes its byte and a plus sign a space. *)
Fixpoint decode (s : string) : string :=
  match s with
  | String c r =>
      if Ascii.eqb c "%" then
        match r with
        | String h1 (String h2 r') =>
            String (ascii_of_N (Z.to_N (Z.lor (Z.shiftl (unhex h1) 4) (unhex h2))))
                   (decode r')
        | _ => EmptyString
        end
      else if Ascii.eqb c "+" then String " " (decode r)
      else String c (decode r)
  | EmptyString => EmptyString
  end.

(** [url.QueryUnescape(s)]; [None] stands for the [EscapeError]. *)
Definition QueryUnescape (s : string) : option string :=
  if wellFormed s then Some (decode s) else None.

(** [shouldEscape(c, encodeQueryComponent)]: everything but letters,
    digits and [-_.~]. *)
Definition shouldEscape (c : ascii) : bool :=
  negb (http.isLower c || isUpper c || isDigitByte c
        || http.mem_byte c "-_.~").

Definition upperhex : string := "0123456789ABCDEF".

Definition hexDigit (n : Z) : ascii :=
  match String.get (Z.to_nat n) upperhex with
  | Some c => c
  | None => "0"%char
  end.

(** [url.QueryEscape(s)] *)
Fixpoint QueryEscape (s : string) : string :=
  match s with
  | String c r =>
      if Ascii.eqb c " " then String "+" (QueryEscape r)
      else if shouldEscape c then
        String "%" (String (hexDigit (Z.shiftr (byte c) 4))
                      (String (hexDigit (Z.land (byte c) 15)) (QueryEscape r)))
      else String c (QueryEscape r)
  | EmptyString => EmptyString
  end.

(** [strings.Cut(s, sep)] for a separator of one byte. *)
Fixpoint Cut (s : string) (sep : ascii) : string * string * bool :=
  match s with
  | String c r =>
      if Ascii.eqb c sep then (EmptyString, r, true)
      else let '(before, after, found) := Cut r sep in
           (String c before, after, found)
  | EmptyString => (EmptyString, EmptyString, false)
  end.

(** [strings.Contains(s, sep)] for a separator of one byte. *)
Fixpoint Contains (s : string) (sep : ascii) : bool :=
  match s with
  | String c r => Ascii.eqb c sep || Contains r sep
  | EmptyString => false
  end.

(** The loop of [parseQuery]: one round per piece between ampersands.  A
    piece with a semicolon or with a malformed escape is skipped. *)
Fixpoint parseQuery (fuel : nat) (m : gmap string (list string))
  (query : string) : gmap string (list string) :=
  match fuel with
  | O => m
  | S fuel' =>
      if String.eqb query "" then m
      else
        let '(key, query, _) := Cut query "&" in
        if Contains key ";" then parseQuery fuel' m query
        else if String.eqb key "" then parseQuery fuel' m query
        else
          let '(key, value, _) := Cut key "=" in
          match QueryUnescape key with
          | None => parseQuery fuel' m query
          | Some key =>
              match QueryUnescape value with
              | None => parseQuery fuel' m query
              | Some value =>
                  parseQuery fuel'
                    (<[key := (default [] (m !! key) ++ [value])%list]> m) query
              end
          end
  end.

(** [u.Query()], which is [ParseQuery(u.RawQuery)] with the error
    dropped.  Every round shortens the query, so its length and one more
    round bound the loop. *)
Definition Query (RawQuery : string) : gmap string (list string) :=
  parseQuery (S (len RawQuery)) ∅ RawQuery.

End url.


(* ===================================================================== *)
(** ** Package time: [Format] on the layouts of net/http                  *)
(* ===================================================================== *)

Module format.
Import gostring time.

Definition longMonthNames : list string :=
  ["January"; "February"; "March"; "April"; "May"; "June"; "July";
   "August"; "September"; "October"; "November"; "December"].

(** Days from January 1 of year 1 to January 1 of 1970. *)
Definition unixEpochDay : Z := 719162.

(** The year and the day within it of [absDate], for a count [d] of days
    from January 1 of year 1; Go counts from an epoch a whole number of
    400-year cycles earlier, which shifts the first quotient only. *)
Definition absYearDay (d : Z) : Z * Z :=
  (* Account for 400 year cycles. *)
  let n := d / 146097 in
  let y := 400 * n in
  let d := d - 146097 * n in
  (* Cut off 100-year cycles. *)
  let n := d / 36524 in
  let n := n - Z.shiftr n 2 in
  let y := y + 100 * n in
  let d := d - 36524 * n in
  (* Cut off 4-year cycles. *)
  let n := d / 1461 in
  let y := y + 4 * n in
  let d := d - 1461 * n in
  (* Cut off years within a 4-year cycle. *)
  let n := d / 365 in
  let n := n - Z.shiftr n 2 in
  let y := y + n in
  let d := d - 365 * n in
  (y + 1, d).

(** The month and the day of the month of [absDate], from the day within
    the year. *)
Definition monthDay (year yday : Z) : Z * Z :=
  let leapDay := isLeap year && (yday =? 31 + 29 - 1) in
  if leapDay then (2, 29)
  else
    let day := if isLeap year && (31 + 29 - 1 <? yday) then yday - 1 else yday in
    (* Estimate month on assumption that every month has 31 days. *)
    let month := day / 31 in
    let end_ := daysBeforeMonth (month + 1) in
    let '(month, begin) :=
      if end_ <=? day then (month + 1, end_)
      else (month, daysBeforeMonth month) in
    (month + 1, day - begin + 1).

(** [absDate(abs, true)]: year, month, day. *)
Definition absDate (d : Z) : Z * Z * Z :=
  let '(year, yday) := absYearDay d in
  let '(month, day) := monthDay year yday in
  (year, month, day).

(** [absWeekday(abs)], Sunday being 0: January 1 of year 1 is a Monday. *)
Definition absWeekday (d : Z) : Z := (d + 1) mod 7.

(** The character of a decimal digit. *)
Definition digitChar (d : Z) : ascii := ascii_of_N (Z.to_N (48 + d)).

(** The decimal digits of [u], most significant first. *)
Fixpoint decimal (fuel : nat) (u : Z) : string :=
  match fuel with
  | O => ""
  | S fuel' =>
      ((if (u <? 10)%Z then "" else decimal fuel' (u / 10)%Z)
       ++ String (digitChar (u mod 10)%Z) "")%string
  end.

Fixpoint zeros (n : nat) : string :=
  match n with
  | O => ""
  | S n' => String "0" (zeros n')
  end.

(** [appendInt(b, x, width)]: a minus sign for a negative [x], then its
    decimal form padded with zeros to [width].  An int has at most 19
    digits. *)
Definition appendInt (x : Z) (width : nat) : string :=
  let u := Z.abs x in
  let ds := decimal 19 u in
  ((if (x <? 0)%Z then "-" else "") ++ zeros (width - len ds) ++ ds)%string.

(** What [appendFormat] writes for one element of a layout; [name] and
    [offset] are the zone abbreviation and the offset, in seconds east of
    UTC, that [locabs] returned.  A zone without an abbreviation is written
    as a signed offset in hours and minutes. *)
Definition formatStd (name : string) (offset : Z) (s : std)
  (year month day hour min sec wday : Z) : string :=
  match s with
  | stdYear => appendInt (Z.abs year mod 100) 2
  | stdLongYear => appendInt year 4
  | stdMonth => slice_to 3 (nth (Z.to_nat (month - 1)) longMonthNames "")
  | stdWeekDay => slice_to 3 (nth (Z.to_nat wday) longDayNames "")
  | stdLongWeekDay => nth (Z.to_nat wday) longDayNames ""
  | stdZeroDay => appendInt day 2
  | stdUnderDay => ((if (day <? 10)%Z then " " else "") ++ appendInt day 0)%string
  | stdHour => appendInt hour 2
  | stdZeroMinute => appendInt min 2
  | stdZeroSecond => appendInt sec 2
  | stdTZ =>
      if negb (String.eqb name "") then name
      else
        (* Use the -0700 format. *)
        let zone := Z.quot offset 60 in
        let '(sign, zone) :=
          if (zone <? 0)%Z then ("-", - zone) else ("+", zone) in
        (sign ++ appendInt (zone / 60) 2 ++ appendInt (zone mod 60) 2)%string
  end.

Fixpoint formatChunks (name : string) (offset : Z) (cs : list (string * std))
  (year month day hour min sec wday : Z) : string :=
  match cs with
  | [] => ""
  | (pfx, s) :: cs' =>
      (pfx ++ formatStd name offset s year month day hour min sec wday
       ++ formatChunks name offset cs' year month day hour min sec wday)%string
  end.

(** What [Format] reads of a [*Location]: its method [lookup], which
    gives the zone abbreviation and the offset, in seconds east of UTC, in
    effect at a Unix second. *)
Definition Zones : Type := Z -> string * Z.

(** [time.UTC] *)
Definition utcLoc : Zones := fun _ => ("UTC", 0).

(** [time.FixedZone(name, offset)] *)
Definition FixedZone (name : string) (offset : Z) : Zones :=
  fun _ => (name, offset).

(** A [time.Time] value as [Format] reads it: the instant and the
    Location the value is held in. *)
Record Located : Type := { instant : Time; loc : Zones }.

(** [t.In(loc)] and [t.UTC()] *)
Definition inLoc (l : Zones) (t : Time) : Located :=
  {| instant := t; loc := l |}.
Definition inUTC (t : Time) : Located := inLoc utcLoc t.

(** [t.locabs()]: the zone in effect at [t] in its Location, and the
    seconds of its wall clock there, counted from the Unix epoch as if
    the wall clock were UTC. *)
Definition locabs (t : Located) : string * Z * Z :=
  let sec := Unix (instant t) in
  let '(name, offset) := loc t sec in
  (name, offset, sec + offset).

(** [t.Format(layout)]: the date and the time of day are those of the
    wall clock in the Location of [t]. *)
Definition Format (layout : Layout) (t : Located) : string :=
  let '(name, offset, abs) := locabs t in
  let d := abs / 86400 + unixEpochDay in
  let '(year, month, day) := absDate d in
  let clock := abs mod 86400 in
  let hour := clock / 3600 in
  let min := clock mod 3600 / 60 in
  let sec := clock mod 60 in
  (formatChunks name offset (chunks layout) year month day hour min sec
     (absWeekday d)
   ++ trailer layout)%string.

End format.

(* ===================================================================== *)
(** ** The test file: the spy handler and the encoders                    *)
(* ===================================================================== *)

Module deadline_test.

(** [time.Time{}], January 1 of year 1, 00:00:00 UTC. *)
Definition zeroTime : Time := Date 1 1 1 0 0 0 0.

(** [type spyHandler struct { Deadline time.Time; OK bool }] *)
Record spyHandler : Type := { Deadline : Time; OK : bool }.

(** [var spy spyHandler] *)
Definition zeroSpy : spyHandler := {| Deadline := zeroTime; OK := false |}.

(** [(h *spyHandler).ServeHTTP(_, req)]: the spy after the call.  It
    stores what [req.Context().Deadline()] returns, the zero time and
    false when the context has no deadline. *)
Definition ServeHTTP (h : spyHandler) (req : Request) : spyHandler :=
  match context.Deadline (Context req) with
  | Some d => {| Deadline := d; OK := true |}
  | None => {| Deadline := zeroTime; OK := false |}
  end.

(** The spy after the calls it received, in order. *)
Definition after (reqs : list Request) : spyHandler :=
  fold_left ServeHTTP reqs zeroSpy.

(** [var now = time.Date(2024, 7, 22, 20, 10, 0, 0, time.UTC)]: the
    instant; the value is held in UTC, [format.inUTC now] where it is
    formatted. *)
Definition now : Time := Date 2024 7 22 20 10 0 0.

(** [asTimeFormat], [asRFC850] and [asANSIC]: [t.Format] of the layout,
    for a [t] held in any Location. *)
Definition asTimeFormat (t : format.Located) : string :=
  format.Format TimeFormat t.
Definition asRFC850 (t : format.Located) : string := format.Format RFC850 t.
Definition asANSIC (t : format.Located) : string := format.Format ANSIC t.

End deadline_test.

(** *** Reading back what [Format] wrote *)

(** The fields of a parse with one of them replaced. *)
Definition set_year (f : fields) (v : Z) : fields :=
  {| year := v; month := month f; day := day f; hour := hour f; min := min f;
     sec := sec f; nsec := nsec f; z_utc := z_utc f; zoneName := zoneName f |}.
Definition set_month (f : fields) (v : Z) : fields :=
  {| year := year f; month := v; day := day f; hour := hour f; min := min f;
     sec := sec f; nsec := nsec f; z_utc := z_utc f; zoneName := zoneName f |}.
Definition set_day (f : fields) (v : Z) : fields :=
  {| year := year f; month := month f; day := v; hour := hour f; min := min f;
     sec := sec f; nsec := nsec f; z_utc := z_utc f; zoneName := zoneName f |}.
Definition set_hour (f : fields) (v : Z) : fields :=
  {| year := year f; month := month f; day := day f; hour := v; min := min f;
     sec := sec f; nsec := nsec f; z_utc := z_utc f; zoneName := zoneName f |}.
Definition set_min (f : fields) (v : Z) : fields :=
  {| year := year f; month := month f; day := day f; hour := hour f; min := v;
     sec := sec f; nsec := nsec f; z_utc := z_utc f; zoneName := zoneName f |}.
Definition set_sec (f : fields) (v : Z) : fields :=
  {| year := year f; month := month f; day := day f; hour := hour f; min := min f;
     sec := v; nsec := nsec f; z_utc := z_utc f; zoneName := zoneName f |}.
Definition set_utc (f : fields) : fields :=
  {| year := year f; month := month f; day := day f; hour := hour f; min := min f;
     sec := sec f; nsec := nsec f; z_utc := true; zoneName := zoneName f |}.

(** The fields of a parse that read a whole date and time of day. *)
Definition civil (y m d h mi se : Z) (utc : bool) : fields :=
  {| year := y; month := m; day := d; hour := h; min := mi; sec := se;
     nsec := 0; z_utc := utc; zoneName := "" |}.

(** The instant [t] without its fraction of a second. *)
Definition truncSecond (t : Time) : Time := t - t mod 1000000000.

(** The zone in effect at [t] in the Location it is held in. *)
Definition zoneOf (t : format.Located) : string * Z :=
  format.loc t (Unix (format.instant t)).

(** The instant at which a UTC clock shows what the wall clock of [t]
    shows in its own Location: [t] moved by its zone offset. *)
Definition wallClock (t : format.Located) : Time :=
  addSec (format.instant t) (snd (zoneOf t)).

(* ===================================================================== *)
(** ** Properties                                                         *)
(* ===================================================================== *)

(** *** The table of deadline_test.go *)

Example TestFromHeader :
  map (observe InHeader "X-MTP-Deadline")
    [None;
     Some fixtureTimeFormat; Some fixtureRFC850; Some fixtureANSIC;
     Some (fixtureTimeFormat ++ "garbage")%string;
     Some (fixtureRFC850 ++ "garbage")%string;
     Some (fixtureANSIC ++ "garbage")%string;
     Some ""]
  = [(200, [None]);
     (200, [Some fixture]); (200, [Some fixture]); (200, [Some fixture]);
     (400, []); (400, []); (400, []);
     (400, [])].
Proof. vm_compute. reflexivity. Qed.

Example TestFromQueryParams :
  map (observe InQuery "mtpdeadline")
    [None;
     Some fixtureTimeFormat; Some fixtureRFC850; Some fixtureANSIC;
     Some (fixtureTimeFormat ++ "garbage")%string;
     Some (fixtureRFC850 ++ "garbage")%string;
     Some (fixtureANSIC ++ "garbage")%string;
     Some ""]
  = [(200, [None]);
     (200, [Some fixture]); (200, [Some fixture]); (200, [Some fixture]);
     (400, []); (400, []); (400, []);
     (400, [])].
Proof. vm_compute. reflexivity. Qed.


(** *** Contexts *)


Lemma cancel_Err (c : context.Context) (id : nat) (e : context.error)
  (s : context.State) :
  context.idOf c = Some id -> is_Some (context.Err (context.cancel c e s) c).
Proof.
  intros Hid. unfold context.cancel. rewrite Hid.
  destruct (context.Err s c) as [e'|] eqn:HE.
  - rewrite HE. eauto.
  - destruct c; simpl in Hid; try discriminate; inversion Hid; subst; simpl;
      rewrite lookup_insert_eq; eauto.
Qed.

Lemma cancel_now (c : context.Context) (e : context.error) (s : context.State) :
  context.now (context.cancel c e s) = context.now s.
Proof.
  unfold context.cancel.
  destruct (context.Err s c); [reflexivity|].
  destruct (context.idOf c); reflexivity.
Qed.

Lemma WithDeadline_inv (parent : context.Context) (d : Time)
  (s s1 : context.State) (c : context.Context) (cancel : context.CancelFunc) :
  context.WithDeadline parent d s = (c, cancel, s1) ->
  cancel = context.cancel c context.Canceled /\
  context.parentOf c = Some parent /\
  context.idOf c = Some (context.fresh s) /\
  context.Deadline c = Some (capped (context.Deadline parent) d) /\
  context.now s1 = context.now s.
Proof.
  unfold context.WithDeadline, context.WithCancel, capped.
  destruct (context.Deadline parent) as [cur|] eqn:HD; simpl.
  - destruct (Before cur d) eqn:HB.
    + intros H; inversion H; subst; simpl. rewrite HD. auto.
    + destruct (Until (context.now s) d <=? 0);
        intros H; inversion H; subst; simpl; rewrite ?cancel_now; auto.
  - destruct (Until (context.now s) d <=? 0);
      intros H; inversion H; subst; simpl; rewrite ?cancel_now; auto.
Qed.



(** *** Parsing *)

Lemma ParseTime_empty (tz : Location) : ParseTime tz "" = None.
Proof. reflexivity. Qed.

Lemma ParseTime_parses (tz : Location) (text : string) :
  is_Some (ParseTime tz text) <-> parses tz text.
Proof.
  unfold ParseTime, parses. generalize timeFormats as ls.
  induction ls as [|l ls IH]; simpl.
  - split; [intros [x Hx]; discriminate | intros (l & [] & _)].
  - destruct (Parse tz l text) as [t|] eqn:HP.
    + split; [|eauto]. intros _. exists l. rewrite HP. eauto.
    + rewrite IH. split.
      * intros (l' & Hin & Hs). eauto.
      * intros (l' & [->|Hin] & Hs); [|eauto].
        rewrite HP in Hs. destruct Hs; discriminate.
Qed.

Lemma ParseTime_None (tz : Location) (text : string) :
  ParseTime tz text = None <-> ~ parses tz text.
Proof.
  rewrite <- ParseTime_parses. destruct (ParseTime tz text); split; intros H.
  - discriminate.
  - exfalso; eauto.
  - intros [x Hx]; discriminate.
  - reflexivity.
Qed.

(** *** Header keys *)

Lemma canonByte_valid (upper : bool) (c : ascii) :
  validHeaderFieldByte (canonByte upper c) = validHeaderFieldByte c.
Proof.
  destruct c as [[] [] [] [] [] [] [] []]; destruct upper; reflexivity.
Qed.

Lemma canonByte_idem (upper : bool) (c : ascii) :
  canonByte upper (canonByte upper c) = canonByte upper c.
Proof.
  destruct c as [[] [] [] [] [] [] [] []]; destruct upper; reflexivity.
Qed.

Lemma canonicalize_valid (a : string) (upper : bool) :
  allValid (canonicalize upper a) = allValid a.
Proof.
  revert upper. induction a as [|c r IH]; intros upper; simpl; [reflexivity|].
  rewrite canonByte_valid, IH. reflexivity.
Qed.

Lemma canonicalize_idem (a : string) (upper : bool) :
  canonicalize upper (canonicalize upper a) = canonicalize upper a.
Proof.
  revert upper. induction a as [|c r IH]; intros upper; simpl; [reflexivity|].
  rewrite canonByte_idem, IH. reflexivity.
Qed.

(** Canonical keys are fixed points of [CanonicalHeaderKey]. *)
Lemma CanonicalHeaderKey_idem (s : string) :
  CanonicalHeaderKey (CanonicalHeaderKey s) = CanonicalHeaderKey s.
Proof.
  unfold CanonicalHeaderKey, CanonicalMIMEHeaderKey.
  destruct (allValid s) eqn:Hv.
  - rewrite canonicalize_valid, Hv. apply canonicalize_idem.
  - rewrite Hv. reflexivity.
Qed.

(** [Header.Set] and [Header.Add] keep the keys of a header canonical. *)
Lemma keys_canonical_empty : keys_canonical ∅.
Proof. intros k [v Hk]. rewrite lookup_empty in Hk. discriminate. Qed.

Lemma keys_canonical_Set (h : gmap string (list string)) (key val : string) :
  keys_canonical h -> keys_canonical (Header_Set h key val).
Proof.
  intros Hc k. unfold Header_Set.
  destruct (decide (CanonicalMIMEHeaderKey key = k)) as [<-|Hne].
  - intros _. apply CanonicalHeaderKey_idem.
  - rewrite lookup_insert_ne by exact Hne. apply Hc.
Qed.

Lemma keys_canonical_Add (h : gmap string (list string)) (key val : string) :
  keys_canonical h -> keys_canonical (Header_Add h key val).
Proof.
  intros Hc k. unfold Header_Add.
  destruct (decide (CanonicalMIMEHeaderKey key = k)) as [<-|Hne].
  - intros _. apply CanonicalHeaderKey_idem.
  - rewrite lookup_insert_ne by exact Hne. apply Hc.
Qed.

(** The RFC 850 encoding names the zone GMT, which [Parse] looks up in
    the local zone. *)
Lemma ParseTime_fixtureRFC850 (tz : Location) :
  gmt_is_utc tz -> ParseTime tz fixtureRFC850 = Some fixture.
Proof.
  intros Hgmt. unfold ParseTime, timeFormats, parseFirst.
  assert (Parse tz TimeFormat fixtureRFC850 = None) as ->
    by (vm_compute; reflexivity).
  unfold Parse.
  assert (parseChunks (chunks RFC850) fixtureRFC850 fields0
          = Some ({| year := 2024; month := 7; day := 22; hour := 20;
                     min := 10; sec := 0; nsec := 0; z_utc := false;
                     zoneName := "GMT" |}, "")) as ->
    by (vm_compute; reflexivity).
  cbv beta iota. cbn [trailer RFC850 year month day hour min sec nsec z_utc zoneName].
  destruct (Hgmt (Unix (Date 2024 7 22 20 10 0 0))) as [-> | ->];
    vm_compute; reflexivity.
Qed.

(** *** The two adapters, case by case *)

Lemma adapter_absent (tz : Location) (src : Source) (name : string)
  (h : Handler) (req : Request) :
  present src name req = false ->
  adapter tz src name h req = ServeHTTP h req.
Proof.
  destruct src; simpl; unfold FromHeader, FromQueryParams.
  - destruct (Header req !! CanonicalHeaderKey name); [discriminate|reflexivity].
  - intros ->. reflexivity.
Qed.

Lemma adapter_invalid (tz : Location) (src : Source) (name : string)
  (h : Handler) (req : Request) :
  present src name req = true ->
  value src name req = "" \/ ParseTime tz (value src name req) = None ->
  adapter tz src name h req = WriteHeader StatusBadRequest.
Proof.
  intros Hp Hv.
  assert (ParseTime tz (value src name req) = None) as HN.
  { destruct Hv as [-> | Hv]; [apply ParseTime_empty | exact Hv]. }
  destruct src; simpl in *; unfold FromHeader, FromQueryParams.
  - destruct (Header req !! CanonicalHeaderKey name); [|discriminate].
    rewrite HN. destruct (String.eqb _ _); reflexivity.
  - rewrite Hp. simpl. rewrite HN. destruct (String.eqb _ _); reflexivity.
Qed.

Lemma adapter_valid (tz : Location) (src : Source) (name : string)
  (h : Handler) (req : Request) (t : Time) :
  present src name req = true ->
  ParseTime tz (value src name req) = Some t ->
  adapter tz src name h req =
  bind (WithDeadline (Context req) t) (fun '(ctx, cancel) =>
    defer_ (call cancel ctx) (ServeHTTP h (WithContext req ctx))).
Proof.
  intros Hp Ht.
  assert (String.eqb (value src name req) "" = false) as Hne.
  { destruct (String.eqb_spec (value src name req) "") as [E|]; [|reflexivity].
    rewrite E, ParseTime_empty in Ht. discriminate. }
  destruct src; simpl in *; unfold FromHeader, FromQueryParams.
  - destruct (Header req !! CanonicalHeaderKey name); [|discriminate].
    rewrite Ht, Hne. reflexivity.
  - rewrite Hp. simpl. rewrite Ht, Hne. reflexivity.
Qed.

(** The run of the accepting path, once the context is derived and the
    handler has come back. *)
Lemma valid_run (h : Handler) (req : Request) (t : Time) (w w2 : World)
  (c : context.Context) (cancel : context.CancelFunc) (s1 : context.State)
  (r : result unit) :
  context.WithDeadline (Context req) t (contexts w) = (c, cancel, s1) ->
  h (WithContext req c) {| response := response w; contexts := s1 |} = (r, w2) ->
  bind (WithDeadline (Context req) t) (fun '(ctx, cancel) =>
    defer_ (call cancel ctx) (ServeHTTP h (WithContext req ctx))) w
  = (r, {| response := response w2; contexts := cancel (contexts w2) |},
     [Derived (Context req) t c; Called (WithContext req c); Released c]).
Proof.
  intros HW Hh. unfold bind, WithDeadline, defer_, ServeHTTP, call.
  rewrite HW. simpl. rewrite Hh. simpl. reflexivity.
Qed.

Lemma valid_run_ex (tz : Location) (src : Source) (name : string)
  (h : Handler) (req : Request) (w : World) (t : Time) :
  present src name req = true ->
  ParseTime tz (value src name req) = Some t ->
  exists c cancel s1 r w2,
    context.WithDeadline (Context req) t (contexts w) = (c, cancel, s1) /\
    h (WithContext req c) {| response := response w; contexts := s1 |} = (r, w2) /\
    adapter tz src name h req w
    = (r, {| response := response w2; contexts := cancel (contexts w2) |},
       [Derived (Context req) t c; Called (WithContext req c); Released c]).
Proof.
  intros Hp Ht.
  destruct (context.WithDeadline (Context req) t (contexts w))
    as [[c cancel] s1] eqn:HW.
  destruct (h (WithContext req c) {| response := response w; contexts := s1 |})
    as [r w2] eqn:Hh.
  exists c, cancel, s1, r, w2.
  split; [reflexivity|]. split; [exact Hh|].
  rewrite (adapter_valid tz src name h req t Hp Ht).
  exact (valid_run h req t w w2 c cancel s1 r HW Hh).
Qed.

Lemma ServeHTTP_trace (h : Handler) (req : Request) (w : World) :
  trace (ServeHTTP h req w) = [Called req].
Proof. unfold ServeHTTP, trace. destruct (h req w). reflexivity. Qed.

Lemma rejecting_run (tz : Location) (src : Source) (name : string)
  (h : Handler) (req : Request) (w : World) :
  present src name req = true ->
  ParseTime tz (value src name req) = None ->
  adapter tz src name h req w
  = (Returned tt,
     {| response := (response w ++ [OpWriteHeader StatusBadRequest])%list;
        contexts := contexts w |},
     [Wrote StatusBadRequest]).
Proof.
  intros Hp HN. rewrite (adapter_invalid tz src name h req Hp (or_intror HN)).
  reflexivity.
Qed.

(** *** The adapters on every request *)



(** C2.  When the named field is present and its value is empty or is
    parsed by none of the accepted layouts, the adapter writes status 400
    and returns; it does nothing else, so the wrapped handler is not
    called.  Header and query mode, empty and unparsable values all end in
    this same run. *)
Theorem C2_invalid_value_is_bad_request (tz : Location) (src : Source)
  (name : string) (h : Handler) (req : Request) (w : World) :
  present src name req = true ->
  value src name req = "" \/ ~ parses tz (value src name req) ->
  adapter tz src name h req w
  = (Returned tt,
     {| response := (response w ++ [OpWriteHeader 400])%list;
        contexts := contexts w |},
     [Wrote 400])
  /\ calls (trace (adapter tz src name h req w)) = [].
Proof.
  intros Hp Hv.
  assert (ParseTime tz (value src name req) = None) as HN.
  { destruct Hv as [-> | Hv]; [apply ParseTime_empty|].
    apply ParseTime_None. exact Hv. }
  rewrite (rejecting_run tz src name h req w Hp HN). split; reflexivity.
Qed.

Lemma C2_invalid_value_is_bad_request_witness :
  adapter UTC InHeader "X-MTP-Deadline" crash
    (headerRequest "X-Mtp-Deadline" "" None) world0
  = (Returned tt,
     {| response := [OpWriteHeader 400]; contexts := contexts world0 |},
     [Wrote 400])
  /\ calls (trace (adapter UTC InHeader "X-MTP-Deadline" crash
                     (headerRequest "X-Mtp-Deadline" "" None) world0)) = [].
Proof.
  apply (C2_invalid_value_is_bad_request UTC InHeader "X-MTP-Deadline" crash
           (headerRequest "X-Mtp-Deadline" "" None) world0).
  - reflexivity.
  - left. reflexivity.
Defined.



(** C4, as amended.  When the named field parses to [t], the wrapped
    handler is called with the request carrying a context derived from
    the original request context, and that context's deadline is the
    earlier of [t] and the deadline the original context already had: it
    is [t] itself, to the nanosecond, unless the original context has a
    deadline before [t], which is then kept. *)
Theorem C4_deadline_is_parsed_or_sooner (tz : Location) (src : Source)
  (name : string) (h : Handler) (req : Request) (w : World) (t : Time) :
  present src name req = true ->
  ParseTime tz (value src name req) = Some t ->
  exists c cancel s1,
    context.WithDeadline (Context req) t (contexts w) = (c, cancel, s1) /\
    calls (trace (adapter tz src name h req w)) = [WithContext req c] /\
    Context (WithContext req c) = c /\
    context.parentOf c = Some (Context req) /\
    context.Deadline c = Some (capped (context.Deadline (Context req)) t) /\
    ((forall cur, context.Deadline (Context req) = Some cur ->
                  Before cur t = false) ->
     context.Deadline c = Some t).
Proof.
  intros Hp Ht.
  destruct (valid_run_ex tz src name h req w t Hp Ht)
    as (c & cancel & s1 & r & w2 & HW & Hh & Hrun).
  destruct (WithDeadline_inv _ _ _ _ _ _ HW) as (_ & Hpar & _ & HD & _).
  exists c, cancel, s1. rewrite Hrun. simpl.
  repeat (split; [solve [auto]|]).
  intros Hno. rewrite HD. unfold capped.
  destruct (context.Deadline (Context req)) as [cur|]; [|reflexivity].
  rewrite (Hno cur eq_refl). reflexivity.
Qed.

Lemma C4_deadline_is_parsed_or_sooner_witness :
  exists c cancel s1,
    context.WithDeadline context.backgroundCtx fixture (contexts world0)
    = (c, cancel, s1) /\
    calls (trace (adapter UTC InHeader "X-MTP-Deadline" spy
                    (headerRequest "X-Mtp-Deadline" fixtureRFC850 None) world0))
    = [WithContext (headerRequest "X-Mtp-Deadline" fixtureRFC850 None) c] /\
    Context (WithContext (headerRequest "X-Mtp-Deadline" fixtureRFC850 None) c)
    = c /\
    context.parentOf c = Some context.backgroundCtx /\
    context.Deadline c = Some (capped None fixture) /\
    ((forall cur, @None Time = Some cur -> Before cur fixture = false) ->
     context.Deadline c = Some fixture).
Proof.
  apply (C4_deadline_is_parsed_or_sooner UTC InHeader "X-MTP-Deadline" spy
           (headerRequest "X-Mtp-Deadline" fixtureRFC850 None) world0 fixture).
  - reflexivity.
  - vm_compute. reflexivity.
Defined.

(** C4 as stated fails.  Take a request with the query parameter asking
    for 20:05:00 and the header asking for 20:10:00, served by
    [FromQueryParams] wrapped around [FromHeader].  The outer adapter
    hands the inner one a request whose context has the deadline
    20:05:00; the inner adapter parses 20:10:00 and calls its handler with
    a context whose deadline is still 20:05:00. *)
Lemma C4_counterexample :
  let sooner := Date 2024 7 22 20 5 0 0 in
  let inner := adapter UTC InHeader "X-MTP-Deadline" spy in
  let outer := adapter UTC InQuery "mtpdeadline" (asHandler inner) in
  let req := {| Header := {[ "X-Mtp-Deadline" := [fixtureTimeFormat] ]};
                URL_ := {| Query := {[ "mtpdeadline" := ["Mon Jul 22 20:05:00 2024"] ]} |};
                ctx := None |} in
  let req1 := WithContext req (context.timerCtx 0 context.backgroundCtx sooner) in
  let w1 := {| response := [];
               contexts := {| context.now := context.now (contexts world0);
                              context.done := ∅; context.fresh := 1 |} |} in
  calls (trace (outer req world0)) = [req1] /\
  present InHeader "X-MTP-Deadline" req1 = true /\
  ParseTime UTC (value InHeader "X-MTP-Deadline" req1) = Some fixture /\
  exists req2,
    calls (trace (inner req1 w1)) = [req2] /\
    context.parentOf (Context req2) = Some (Context req1) /\
    context.Deadline (Context req2) = Some sooner /\
    context.Deadline (Context req2) <> Some fixture /\
    Unix sooner <> Unix fixture.
Proof.
  intros sooner inner outer req req1 w1.
  split; [reflexivity|]. split; [reflexivity|].
  split; [vm_compute; reflexivity|].
  exists (WithContext req1
            (context.cancelCtx 1
               (context.timerCtx 0 context.backgroundCtx sooner))).
  split; [reflexivity|]. split; [reflexivity|]. split; [reflexivity|].
  split; vm_compute; discriminate.
Qed.

(** C5 as stated fails in its last part.  Take a request that reaches
    [FromQueryParams] with a context whose deadline is 20:05:00, as a
    server-side timeout set before the adapter leaves it, and whose query
    parameter holds the ANSI C encoding of the fixture, 20:10:00.  The
    value parses to the fixture instant, and the handler is called once,
    with a context whose deadline is 20:05:00: that is what the spy of the
    tests records, not the fixture instant. *)
Lemma C5_counterexample :
  let sooner := Date 2024 7 22 20 5 0 0 in
  let parent := context.timerCtx 0 context.backgroundCtx sooner in
  let req := queryRequest "mtpdeadline" fixtureANSIC (Some parent) in
  let w := {| response := [];
              contexts := {| context.now := context.now (contexts world0);
                             context.done := ∅; context.fresh := 1 |} |} in
  present InQuery "mtpdeadline" req = true /\
  value InQuery "mtpdeadline" req = fixtureANSIC /\
  ParseTime UTC fixtureANSIC = Some fixture /\
  exists req2,
    calls (trace (adapter UTC InQuery "mtpdeadline" spy req w)) = [req2] /\
    context.Deadline (Context req2) = Some sooner /\
    context.Deadline (Context req2) <> Some fixture /\
    deadline_test.after [req2]
    = {| deadline_test.Deadline := sooner; deadline_test.OK := true |} /\
    Unix sooner <> Unix fixture.
Proof.
  intros sooner parent req w.
  split; [reflexivity|]. split; [reflexivity|].
  split; [vm_compute; reflexivity|].
  exists (WithContext req (context.cancelCtx 1 parent)).
  split; [vm_compute; reflexivity|]. split; [reflexivity|].
  split; [vm_compute; discriminate|]. split; [reflexivity|].
  vm_compute; discriminate.
Qed.

(** C5, amended.  The three encodings of 2024-07-22T20:10:00Z parse to
    that one instant, and in header mode as in query mode the wrapped
    handler is called once, with a context whose deadline is the earlier
    of that instant and the deadline the incoming context already has: it
    is that instant exactly when the incoming context has no earlier
    deadline of its own, as in the tests.  (The RFC 850 encoding names the
    zone GMT, which [time.Parse] looks up in the local zone of the
    process: this is for a local zone in which GMT, where known, has
    offset zero.) *)
Theorem C5_fixture_encodings (tz : Location) (src : Source) (name : string)
  (h : Handler) (req : Request) (w : World) (text : string) :
  gmt_is_utc tz ->
  In text [fixtureTimeFormat; fixtureRFC850; fixtureANSIC] ->
  Unix fixture = 1721679000 /\
  ParseTime tz text = Some fixture /\
  (present src name req = true ->
   value src name req = text ->
   exists c,
     calls (trace (adapter tz src name h req w)) = [WithContext req c] /\
     context.Deadline (Context (WithContext req c))
     = Some (capped (context.Deadline (Context req)) fixture) /\
     (context.Deadline (Context (WithContext req c)) = Some fixture
      <-> forall cur, context.Deadline (Context req) = Some cur ->
                      Before cur fixture = false)).
Proof.
  intros Hgmt Hin.
  assert (ParseTime tz text = Some fixture) as HP.
  { destruct Hin as [<-|[<-|[<-|[]]]].
    - vm_compute. reflexivity.
    - apply ParseTime_fixtureRFC850. exact Hgmt.
    - vm_compute. reflexivity. }
  split; [reflexivity|]. split; [exact HP|].
  intros Hp Hv. rewrite <- Hv in HP.
  destruct (valid_run_ex tz src name h req w fixture Hp HP)
    as (c & cancel & s1 & r & w2 & HW & Hh & Hrun).
  destruct (WithDeadline_inv _ _ _ _ _ _ HW) as (_ & _ & _ & HD & _).
  exists c. rewrite Hrun. split; [reflexivity|].
  change (Context (WithContext req c)) with c. rewrite HD.
  split; [reflexivity|]. unfold capped.
  destruct (context.Deadline (Context req)) as [cur|].
  - destruct (Before cur fixture) eqn:HB.
    + split.
      * intros E. inversion E as [E']. rewrite E' in HB.
        unfold Before in HB. rewrite Z.ltb_irrefl in HB. discriminate.
      * intros Hno. rewrite (Hno cur eq_refl) in HB. discriminate.
    + split; [|reflexivity]. intros _ cur' E. inversion E; subst. exact HB.
  - split; [|reflexivity]. intros _ cur E. discriminate.
Qed.

Lemma C5_fixture_encodings_witness :
  ParseTime UTC fixtureRFC850 = Some fixture /\
  exists c,
    calls (trace (adapter UTC InQuery "mtpdeadline" spy
                    (queryRequest "mtpdeadline" fixtureRFC850 None) world0))
    = [WithContext (queryRequest "mtpdeadline" fixtureRFC850 None) c] /\
    context.Deadline
      (Context (WithContext (queryRequest "mtpdeadline" fixtureRFC850 None) c))
    = Some fixture.
Proof.
  destruct (C5_fixture_encodings UTC InQuery "mtpdeadline" spy
              (queryRequest "mtpdeadline" fixtureRFC850 None) world0
              fixtureRFC850
              (fun _ => or_introl eq_refl)
              (or_intror (or_introl eq_refl))) as (_ & HP & Hrun).
  split; [exact HP|].
  destruct (Hrun eq_refl eq_refl) as (c & Hc & HD & _).
  exists c. split; [exact Hc | exact HD].
Defined.

(** C6.  When the named field parses, the cancel function of the derived
    context is called exactly once, as the last thing the adapter does,
    whatever way the wrapped handler comes back: the adapter's outcome is
    the handler's own, a return or a panic, and in both the context has
    been released when the adapter is left. *)
Theorem C6_cancel_runs_once_on_every_exit (tz : Location) (src : Source)
  (name : string) (h : Handler) (req : Request) (w : World) (t : Time) :
  present src name req = true ->
  ParseTime tz (value src name req) = Some t ->
  exists c cancel s1 r w2,
    context.WithDeadline (Context req) t (contexts w) = (c, cancel, s1) /\
    h (WithContext req c) {| response := response w; contexts := s1 |} = (r, w2) /\
    let out := adapter tz src name h req w in
    trace out = [Derived (Context req) t c; Called (WithContext req c); Released c] /\
    releases (trace out) = [c] /\
    outcome out = r /\
    contexts (world out) = context.cancel c context.Canceled (contexts w2) /\
    is_Some (context.Err (contexts (world out)) c).
Proof.
  intros Hp Ht.
  destruct (valid_run_ex tz src name h req w t Hp Ht)
    as (c & cancel & s1 & r & w2 & HW & Hh & Hrun).
  destruct (WithDeadline_inv _ _ _ _ _ _ HW) as (Hc & _ & Hid & _ & _).
  exists c, cancel, s1, r, w2. split; [exact HW|]. split; [exact Hh|].
  intros out. unfold out. rewrite Hrun. subst cancel. simpl.
  repeat (split; [reflexivity|]).
  eapply cancel_Err. exact Hid.
Qed.

(** The same on a handler that panics. *)
Lemma C6_cancel_runs_once_on_every_exit_witness :
  exists c cancel s1 r w2,
    context.WithDeadline context.backgroundCtx fixture (contexts world0)
    = (c, cancel, s1) /\
    crash (WithContext (headerRequest "X-Mtp-Deadline" fixtureANSIC None) c)
          {| response := response world0; contexts := s1 |} = (r, w2) /\
    let out := adapter UTC InHeader "X-MTP-Deadline" crash
                 (headerRequest "X-Mtp-Deadline" fixtureANSIC None) world0 in
    trace out
    = [Derived context.backgroundCtx fixture c;
       Called (WithContext (headerRequest "X-Mtp-Deadline" fixtureANSIC None) c);
       Released c] /\
    releases (trace out) = [c] /\
    outcome out = r /\
    contexts (world out) = context.cancel c context.Canceled (contexts w2) /\
    is_Some (context.Err (contexts (world out)) c).
Proof.
  apply (C6_cancel_runs_once_on_every_exit UTC InHeader "X-MTP-Deadline" crash
           (headerRequest "X-Mtp-Deadline" fixtureANSIC None) world0 fixture).
  - reflexivity.
  - vm_compute. reflexivity.
Defined.

(** C7.  The adapter writes to the response only when it rejects the
    request: the status code 400 and nothing more.  When the field is
    absent the run is the handler's own; when the value parses the
    adapter writes nothing, the handler starts from the response as the
    adapter received it, and the response at the end is the one the
    handler left. *)
Theorem C7_adapter_writes_only_on_rejection (tz : Location) (src : Source)
  (name : string) (h : Handler) (req : Request) (w : World) :
  let out := adapter tz src name h req w in
  (present src name req = false ->
   writes (trace out) = [] /\ out = ServeHTTP h req w) /\
  (forall t,
     present src name req = true ->
     ParseTime tz (value src name req) = Some t ->
     writes (trace out) = [] /\
     exists c cancel s1,
       context.WithDeadline (Context req) t (contexts w) = (c, cancel, s1) /\
       response (world out)
       = response (h (WithContext req c)
                     {| response := response w; contexts := s1 |}).2) /\
  (present src name req = true ->
   ParseTime tz (value src name req) = None ->
   writes (trace out) = [StatusBadRequest] /\
   response (world out) = (response w ++ [OpWriteHeader StatusBadRequest])%list).
Proof.
  intros out. unfold out. split; [|split].
  - intros Hp. rewrite (adapter_absent tz src name h req Hp), ServeHTTP_trace.
    split; reflexivity.
  - intros t Hp Ht.
    destruct (valid_run_ex tz src name h req w t Hp Ht)
      as (c & cancel & s1 & r & w2 & HW & Hh & Hrun).
    rewrite Hrun. split; [reflexivity|].
    exists c, cancel, s1. split; [exact HW|]. rewrite Hh. reflexivity.
  - intros Hp HN. rewrite (rejecting_run tz src name h req w Hp HN).
    split; reflexivity.
Qed.

Lemma C7_adapter_writes_only_on_rejection_witness :
  writes (trace (adapter UTC InQuery "mtpdeadline" spy
                   (queryRequest "mtpdeadline" "soon" None) world0))
  = [StatusBadRequest] /\
  response (world (adapter UTC InQuery "mtpdeadline" spy
                     (queryRequest "mtpdeadline" "soon" None) world0))
  = (response world0 ++ [OpWriteHeader StatusBadRequest])%list.
Proof.
  apply (C7_adapter_writes_only_on_rejection UTC InQuery "mtpdeadline" spy
           (queryRequest "mtpdeadline" "soon" None) world0).
  - reflexivity.
  - vm_compute. reflexivity.
Defined.



(** C9, as amended.  In header mode the lookup is made under the
    canonical form of the supplied name.  [FromHeader] treats the field as
    present exactly when the header map of the request has an entry under
    that canonical key; two names with the same canonical form give the
    same adapter, so the supplied name is case-insensitive for presence
    and for the value read; a field stored with [Header.Set] under any
    case variant is found; and on a header map whose keys are canonical
    the field is present exactly when some key that canonicalizes to the
    same header key is set. *)
Theorem C9_lookup_under_canonical_key (tz : Location) (name : string)
  (h : Handler) (req : Request) :
  (present InHeader name req = true
   <-> is_Some (Header req !! CanonicalHeaderKey name)) /\
  (Header req !! CanonicalHeaderKey name = None ->
   FromHeader tz name h req = ServeHTTP h req) /\
  (forall name',
     CanonicalHeaderKey name' = CanonicalHeaderKey name ->
     present InHeader name' req = present InHeader name req /\
     value InHeader name' req = value InHeader name req /\
     FromHeader tz name' h req = FromHeader tz name h req) /\
  (forall k v,
     CanonicalHeaderKey k = CanonicalHeaderKey name ->
     let req' := {| Header := Header_Set (Header req) k v;
                    URL_ := URL_ req; ctx := ctx req |} in
     present InHeader name req' = true /\ value InHeader name req' = v) /\
  (keys_canonical (Header req) ->
   (present InHeader name req = true
    <-> exists k, CanonicalHeaderKey k = CanonicalHeaderKey name /\
                  is_Some (Header req !! k))).
Proof.
  split; [|split; [|split; [|split]]].
  - simpl. destruct (Header req !! CanonicalHeaderKey name) as [v|].
    + split; eauto.
    + split; [discriminate|]. intros [v Hv]. discriminate.
  - intros HN. unfold FromHeader. rewrite HN. reflexivity.
  - intros name' E. simpl.
    unfold FromHeader, Header_Get. unfold CanonicalHeaderKey in E.
    unfold CanonicalHeaderKey. rewrite E. auto.
  - intros k v E req'. simpl. unfold Header_Get, Header_Set.
    unfold CanonicalHeaderKey in *. rewrite E, lookup_insert_eq. auto.
  - intros Hc. simpl.
    destruct (Header req !! CanonicalHeaderKey name) as [v|] eqn:HL.
    + split; [|reflexivity]. intros _. exists (CanonicalHeaderKey name).
      split; [apply CanonicalHeaderKey_idem | rewrite HL; eauto].
    + split; [discriminate|]. intros (k & E & Hk).
      rewrite <- E, (Hc k Hk) in HL. rewrite HL in Hk.
      destruct Hk; discriminate.
Qed.

Lemma C9_lookup_under_canonical_key_witness :
  (present InHeader "x-mtp-DEADLINE"
     (headerRequest "X-Mtp-Deadline" fixtureTimeFormat None) = true
   <-> exists k, CanonicalHeaderKey k = CanonicalHeaderKey "x-mtp-DEADLINE" /\
                 is_Some (Header (headerRequest "X-Mtp-Deadline"
                                    fixtureTimeFormat None) !! k)) /\
  present InHeader "X-MTP-Deadline"
    {| Header := Header_Set ∅ "x-mtp-deadline" fixtureANSIC;
       URL_ := {| Query := ∅ |}; ctx := None |} = true.
Proof.
  split.
  - apply (C9_lookup_under_canonical_key UTC "x-mtp-DEADLINE" spy
             (headerRequest "X-Mtp-Deadline" fixtureTimeFormat None)).
    change (keys_canonical (Header_Set ∅ "x-mtp-deadline" fixtureTimeFormat)).
    apply keys_canonical_Set, keys_canonical_empty.
  - apply (C9_lookup_under_canonical_key UTC "X-MTP-Deadline" spy bareRequest).
    reflexivity.
Defined.

(** C9 as stated fails: a header map written directly under the key
    x-mtp-deadline holds a case variant of X-MTP-Deadline, both
    canonicalize to X-Mtp-Deadline, and yet [FromHeader] finds the field
    absent and hands the request on without a deadline. *)
Lemma C9_counterexample :
  let req := headerRequest "x-mtp-deadline" fixtureTimeFormat None in
  CanonicalHeaderKey "x-mtp-deadline" = CanonicalHeaderKey "X-MTP-Deadline" /\
  Header req !! "x-mtp-deadline" = Some [fixtureTimeFormat] /\
  present InHeader "X-MTP-Deadline" req = false /\
  FromHeader UTC "X-MTP-Deadline" spy req world0 = ServeHTTP spy req world0 /\
  calls (trace (FromHeader UTC "X-MTP-Deadline" spy req world0)) = [req] /\
  context.Deadline (Context req) = None.
Proof.
  intros req. repeat split; reflexivity.
Qed.



(* ===================================================================== *)
(** ** Further properties of the adapters                                 *)
(* ===================================================================== *)

Lemma present_WithContext (src : Source) (name : string) (req : Request)
  (c : context.Context) :
  present src name (WithContext req c) = present src name req.
Proof. destruct src; reflexivity. Qed.

Lemma value_WithContext (src : Source) (name : string) (req : Request)
  (c : context.Context) :
  value src name (WithContext req c) = value src name req.
Proof. destruct src; reflexivity. Qed.



(** What [cancel] and [WithDeadline] do to the store of errors: at most
    one entry, under the identity of the context concerned. *)
Lemma cancel_done (c : context.Context) (e : context.error)
  (s : context.State) (id : nat) :
  context.idOf c <> Some id ->
  context.done (context.cancel c e s) !! id = context.done s !! id.
Proof.
  intros Hne. unfold context.cancel.
  destruct (context.Err s c); [reflexivity|].
  destruct (context.idOf c) as [id'|]; [|reflexivity].
  simpl. apply lookup_insert_ne. congruence.
Qed.

Lemma WithDeadline_done (parent : context.Context) (d : Time)
  (s s1 : context.State) (c : context.Context) (cancel : context.CancelFunc)
  (id : nat) :
  context.WithDeadline parent d s = (c, cancel, s1) ->
  id <> context.fresh s ->
  context.done s1 !! id = context.done s !! id.
Proof.
  unfold context.WithDeadline, context.WithCancel. intros H Hne.
  destruct (match context.Deadline parent with
            | Some cur => Before cur d
            | None => false
            end).
  - inversion H; subst. reflexivity.
  - destruct (Until _ d <=? 0); inversion H; subst; [|reflexivity].
    rewrite cancel_done; [reflexivity|]. simpl. congruence.
Qed.

Lemma Err_frame (c : context.Context) (n : nat) (s s' : context.State) :
  ids_below n c = true ->
  (forall id, (id < n)%nat -> context.done s' !! id = context.done s !! id) ->
  context.Err s' c = context.Err s c.
Proof.
  intros Hb Hd. induction c as [|p IH k v|id p IH|id p IH d]; simpl in *; auto.
  - apply andb_prop in Hb as [Hid Hp]. apply Nat.ltb_lt in Hid.
    rewrite (Hd id Hid), (IH Hp). reflexivity.
  - apply andb_prop in Hb as [Hid Hp]. apply Nat.ltb_lt in Hid.
    rewrite (Hd id Hid), (IH Hp). reflexivity.
Qed.

(** *** Adapters wrapped around adapters *)

(** X1.  When one adapter wraps another and both fields parse, the
    wrapped handler runs once, under a context derived twice, whose
    deadline is the earliest of the two parsed instants and of the
    deadline the request came with; when the handler is back the inner
    context is released first, then the outer one, and the handler's
    outcome is the outcome of the whole. *)
Theorem X1_nested_adapters_keep_earliest_deadline (tz : Location)
  (src1 : Source) (name1 : string) (src2 : Source) (name2 : string)
  (h : Handler) (req : Request) (w : World) (t1 t2 : Time) :
  present src1 name1 req = true ->
  ParseTime tz (value src1 name1 req) = Some t1 ->
  present src2 name2 req = true ->
  ParseTime tz (value src2 name2 req) = Some t2 ->
  exists c1 k1 s1 c2 k2 s2 r wh,
    context.WithDeadline (Context req) t1 (contexts w) = (c1, k1, s1) /\
    context.WithDeadline c1 t2 s1 = (c2, k2, s2) /\
    h (WithContext (WithContext req c1) c2)
      {| response := response w; contexts := s2 |} = (r, wh) /\
    chain tz src1 name1 src2 name2 h req w
    = (r,
       {| response := response wh;
          contexts := context.cancel c1 context.Canceled
                        (context.cancel c2 context.Canceled (contexts wh)) |},
       [Derived (Context req) t1 c1; Called (WithContext req c1); Released c1]) /\
    context.Deadline c2
    = Some (capped (Some (capped (context.Deadline (Context req)) t1)) t2) /\
    (context.Deadline (Context req) = None ->
     context.Deadline c2 = Some (Z.min t1 t2)).
Proof.
  intros Hp1 Ht1 Hp2 Ht2. unfold chain.
  destruct (valid_run_ex tz src1 name1
              (asHandler (adapter tz src2 name2 h)) req w t1 Hp1 Ht1)
    as (c1 & k1 & s1 & r & w2 & HW1 & Hh1 & Hrun1).
  set (req1 := WithContext req c1) in *.
  set (w1 := {| response := response w; contexts := s1 |}) in *.
  assert (present src2 name2 req1 = true) as Hp2'
    by (unfold req1; rewrite present_WithContext; exact Hp2).
  assert (ParseTime tz (value src2 name2 req1) = Some t2) as Ht2'
    by (unfold req1; rewrite value_WithContext; exact Ht2).
  destruct (valid_run_ex tz src2 name2 h req1 w1 t2 Hp2' Ht2')
    as (c2 & k2 & s2 & r' & wh & HW2 & Hh2 & Hrun2).
  unfold asHandler in Hh1. rewrite Hrun2 in Hh1. inversion Hh1; subst r w2.
  destruct (WithDeadline_inv _ _ _ _ _ _ HW1) as (Hk1 & _ & _ & HD1 & _).
  destruct (WithDeadline_inv _ _ _ _ _ _ HW2) as (Hk2 & _ & _ & HD2 & _).
  change (Context req1) with c1 in HW2, HD2. change (contexts w1) with s1 in HW2.
  exists c1, k1, s1, c2, k2, s2, r', wh.
  split; [exact HW1|]. split; [exact HW2|]. split; [exact Hh2|].
  split; [rewrite Hrun1; simpl; subst k1 k2; reflexivity|].
  split; [rewrite HD2, HD1; reflexivity|].
  intros HN. rewrite HD2, HD1, HN. unfold capped, Before. f_equal.
  destruct (t1 <? t2) eqn:E; [apply Z.ltb_lt in E|apply Z.ltb_ge in E]; lia.
Qed.

Lemma X1_nested_adapters_keep_earliest_deadline_witness :
  let req := {| Header := {[ "X-Mtp-Deadline" := [fixtureTimeFormat] ]};
                URL_ := {| Query := {[ "mtpdeadline" := ["Mon Jul 22 20:05:00 2024"] ]} |};
                ctx := None |} in
  exists c1 k1 s1 c2 k2 s2,
    context.WithDeadline (Context req) fixture (contexts world0) = (c1, k1, s1) /\
    context.WithDeadline c1 (Date 2024 7 22 20 5 0 0) s1 = (c2, k2, s2) /\
    context.Deadline c2 = Some (Z.min fixture (Date 2024 7 22 20 5 0 0)).
Proof.
  intros req.
  destruct (X1_nested_adapters_keep_earliest_deadline UTC
              InHeader "X-MTP-Deadline" InQuery "mtpdeadline" spy req world0
              fixture (Date 2024 7 22 20 5 0 0))
    as (c1 & k1 & s1 & c2 & k2 & s2 & r & wh & H1 & H2 & _ & _ & _ & HD).
  - reflexivity.
  - vm_compute. reflexivity.
  - reflexivity.
  - vm_compute. reflexivity.
  - exists c1, k1, s1, c2, k2, s2. split; [exact H1|]. split; [exact H2|].
    apply HD. reflexivity.
Defined.

(** X2.  When the outer field parses and the inner one is present but
    empty or unparsable, the inner adapter writes the 400 under the
    context the outer one derived, the wrapped handler is not reached
    (the run is the same for every handler), and the outer context is
    still released. *)
Theorem X2_inner_rejection_under_outer_deadline (tz : Location)
  (src1 : Source) (name1 : string) (src2 : Source) (name2 : string)
  (h : Handler) (req : Request) (w : World) (t1 : Time) :
  present src1 name1 req = true ->
  ParseTime tz (value src1 name1 req) = Some t1 ->
  present src2 name2 req = true ->
  ParseTime tz (value src2 name2 req) = None ->
  exists c1 k1 s1,
    context.WithDeadline (Context req) t1 (contexts w) = (c1, k1, s1) /\
    chain tz src1 name1 src2 name2 h req w
    = (Returned tt,
       {| response := (response w ++ [OpWriteHeader StatusBadRequest])%list;
          contexts := context.cancel c1 context.Canceled s1 |},
       [Derived (Context req) t1 c1; Called (WithContext req c1); Released c1]).
Proof.
  intros Hp1 Ht1 Hp2 Ht2. unfold chain.
  destruct (valid_run_ex tz src1 name1
              (asHandler (adapter tz src2 name2 h)) req w t1 Hp1 Ht1)
    as (c1 & k1 & s1 & r & w2 & HW1 & Hh1 & Hrun1).
  destruct (WithDeadline_inv _ _ _ _ _ _ HW1) as (Hk1 & _).
  unfold asHandler in Hh1.
  rewrite (rejecting_run tz src2 name2 h (WithContext req c1)) in Hh1.
  - inversion Hh1; subst r w2. exists c1, k1, s1. split; [exact HW1|].
    rewrite Hrun1. simpl. subst k1. reflexivity.
  - rewrite present_WithContext. exact Hp2.
  - rewrite value_WithContext. exact Ht2.
Qed.

Lemma X2_inner_rejection_under_outer_deadline_witness :
  let req := {| Header := {[ "X-Mtp-Deadline" := [""] ]};
                URL_ := {| Query := {[ "mtpdeadline" := [fixtureANSIC] ]} |};
                ctx := None |} in
  exists c1 k1 s1,
    context.WithDeadline (Context req) fixture (contexts world0) = (c1, k1, s1) /\
    chain UTC InQuery "mtpdeadline" InHeader "X-MTP-Deadline" crash req world0
    = (Returned tt,
       {| response := (response world0 ++ [OpWriteHeader StatusBadRequest])%list;
          contexts := context.cancel c1 context.Canceled s1 |},
       [Derived (Context req) fixture c1; Called (WithContext req c1);
        Released c1]).
Proof.
  intros req.
  apply (X2_inner_rejection_under_outer_deadline UTC
           InQuery "mtpdeadline" InHeader "X-MTP-Deadline" crash req world0
           fixture).
  - reflexivity.
  - vm_compute. reflexivity.
  - reflexivity.
  - reflexivity.
Defined.

(** *** Panics, other contexts, further values *)

(** X3.  An adapter neither panics of its own nor recovers a panic: with
    a handler that always returns the adapter returns; and when the
    adapter panics, it has called the handler once and the panic is that
    call's. *)
Theorem X3_panics_are_the_handlers (tz : Location) (src : Source)
  (name : string) (h : Handler) (req : Request) (w : World) :
  let out := adapter tz src name h req w in
  ((forall req' w', (h req' w').1 = Returned tt) -> outcome out = Returned tt) /\
  (forall v, outcome out = Panicked v ->
     exists req' w',
       calls (trace out) = [req'] /\ (h req' w').1 = Panicked v /\
       response w' = response w) /\
  (forall v, (forall req' w', (h req' w').1 = Panicked v) ->
     calls (trace out) <> [] -> outcome out = Panicked v).
Proof.
  intros out. unfold out.
  destruct (present src name req) eqn:Hp.
  - destruct (ParseTime tz (value src name req)) as [t|] eqn:Ht.
    + destruct (valid_run_ex tz src name h req w t Hp Ht)
        as (c & cancel & s1 & r & w2 & HW & Hh & ->). unfold outcome; simpl.
      split; [|split].
      * intros Hret. specialize (Hret (WithContext req c)
          {| response := response w; contexts := s1 |}).
        rewrite Hh in Hret. exact Hret.
      * intros v ->. eexists _, _. split; [reflexivity|].
        rewrite Hh. split; reflexivity.
      * intros v Hpan _. specialize (Hpan (WithContext req c)
          {| response := response w; contexts := s1 |}).
        rewrite Hh in Hpan. exact Hpan.
    + rewrite (rejecting_run tz src name h req w Hp Ht). unfold outcome; simpl.
      split; [reflexivity|]. split; [discriminate|]. intros v _ Hc. congruence.
  - rewrite (adapter_absent tz src name h req Hp). unfold ServeHTTP, outcome.
    destruct (h req w) as [r w2] eqn:Hh. simpl.
    split; [|split].
    + intros Hret. specialize (Hret req w). rewrite Hh in Hret. exact Hret.
    + intros v ->. exists req, w. rewrite Hh. repeat split; reflexivity.
    + intros v Hpan _. specialize (Hpan req w). rewrite Hh in Hpan. exact Hpan.
Qed.

Lemma X3_panics_are_the_handlers_witness :
  outcome (adapter UTC InQuery "mtpdeadline" spy
             (queryRequest "mtpdeadline" fixtureRFC850 None) world0)
  = Returned tt /\
  outcome (adapter UTC InQuery "mtpdeadline" crash
             (queryRequest "mtpdeadline" fixtureRFC850 None) world0)
  = Panicked "boom".
Proof.
  split.
  - apply (X3_panics_are_the_handlers UTC InQuery "mtpdeadline" spy
             (queryRequest "mtpdeadline" fixtureRFC850 None) world0).
    reflexivity.
  - apply (X3_panics_are_the_handlers UTC InQuery "mtpdeadline" crash
             (queryRequest "mtpdeadline" fixtureRFC850 None) world0).
    + reflexivity.
    + vm_compute. discriminate.
Defined.

(** X4.  On the accepting path the adapter changes the cancellation state
    of no context that existed before: such a context reports the same
    error at handler entry as before the adapter ran, and the same error
    after the adapter as when the handler came back.  The request's own
    context is one of them. *)
Theorem X4_only_the_derived_context_is_cancelled (tz : Location)
  (src : Source) (name : string) (h : Handler) (req : Request) (w : World)
  (t : Time) (c0 : context.Context) :
  present src name req = true ->
  ParseTime tz (value src name req) = Some t ->
  ids_below (context.fresh (contexts w)) c0 = true ->
  exists c cancel s1 r wh,
    context.WithDeadline (Context req) t (contexts w) = (c, cancel, s1) /\
    h (WithContext req c) {| response := response w; contexts := s1 |} = (r, wh) /\
    context.Err s1 c0 = context.Err (contexts w) c0 /\
    context.Err (contexts (world (adapter tz src name h req w))) c0
    = context.Err (contexts wh) c0.
Proof.
  intros Hp Ht Hb.
  destruct (valid_run_ex tz src name h req w t Hp Ht)
    as (c & cancel & s1 & r & wh & HW & Hh & Hrun).
  destruct (WithDeadline_inv _ _ _ _ _ _ HW) as (Hk & _ & Hid & _ & _).
  exists c, cancel, s1, r, wh. split; [exact HW|]. split; [exact Hh|]. split.
  - apply (Err_frame c0 _ _ _ Hb). intros id Hlt.
    apply (WithDeadline_done _ _ _ _ _ _ id HW). lia.
  - rewrite Hrun. unfold world; simpl. subst cancel.
    apply (Err_frame c0 _ _ _ Hb). intros id Hlt.
    apply cancel_done. rewrite Hid. intros E. inversion E. lia.
Qed.

Lemma X4_only_the_derived_context_is_cancelled_witness :
  let parent := context.cancelCtx 0 context.backgroundCtx in
  let req := headerRequest "X-Mtp-Deadline" fixtureTimeFormat (Some parent) in
  let w := {| response := [];
              contexts := {| context.now := 0; context.done := ∅;
                             context.fresh := 1 |} |} in
  exists c cancel s1 r wh,
    context.WithDeadline (Context req) fixture (contexts w) = (c, cancel, s1) /\
    spy (WithContext req c) {| response := response w; contexts := s1 |}
    = (r, wh) /\
    context.Err s1 parent = context.Err (contexts w) parent /\
    context.Err (contexts (world (adapter UTC InHeader "X-MTP-Deadline" spy req w)))
      parent
    = context.Err (contexts wh) parent.
Proof.
  intros parent req w.
  apply (X4_only_the_derived_context_is_cancelled UTC InHeader "X-MTP-Deadline"
           spy req w fixture parent).
  - reflexivity.
  - vm_compute. reflexivity.
  - reflexivity.
Defined.



(** X6.  What the spy of the tests holds after an adapter has served a
    request whose context has no deadline: the parsed instant and true
    when the field is present and parses; the zero time and false both
    when the field is absent (the spy was called, without a deadline) and
    when the request was rejected (the spy was not called).  So [OK] is
    true exactly when the field is present and some layout parses it. *)
Theorem X6_what_the_spy_records (tz : Location) (src : Source)
  (name : string) (req : Request) (w : World) :
  context.Deadline (Context req) = None ->
  let out := adapter tz src name spy req w in
  let s := deadline_test.after (calls (trace out)) in
  (present src name req = false ->
   s = deadline_test.zeroSpy /\ calls (trace out) = [req]) /\
  (forall t, present src name req = true ->
     ParseTime tz (value src name req) = Some t ->
     s = {| deadline_test.Deadline := t; deadline_test.OK := true |}) /\
  (present src name req = true ->
   ParseTime tz (value src name req) = None ->
   s = deadline_test.zeroSpy /\ calls (trace out) = []) /\
  (deadline_test.OK s = true
   <-> present src name req = true /\ parses tz (value src name req)).
Proof.
  intros HN out s. unfold s, out. clear s out.
  destruct (present src name req) eqn:Hp.
  - destruct (ParseTime tz (value src name req)) as [t|] eqn:Ht.
    + destruct (valid_run_ex tz src name spy req w t Hp Ht)
        as (c & cancel & s1 & r & wh & HW & _ & ->).
      destruct (WithDeadline_inv _ _ _ _ _ _ HW) as (_ & _ & _ & HD & _).
      rewrite HN in HD. simpl in HD.
      assert (deadline_test.after [WithContext req c]
              = {| deadline_test.Deadline := t; deadline_test.OK := true |}) as E.
      { unfold deadline_test.after. cbn [fold_left].
        unfold deadline_test.ServeHTTP.
        change (Context (WithContext req c)) with c.
        rewrite HD. reflexivity. }
      simpl. rewrite E.
      split; [discriminate|]. split; [intros t' _ Ht'; congruence|].
      split; [discriminate|]. simpl. split; [|reflexivity].
      intros _. split; [reflexivity|].
      apply ParseTime_parses. rewrite Ht. eauto.
    + rewrite (rejecting_run tz src name spy req w Hp Ht). simpl.
      split; [discriminate|]. split; [discriminate|].
      split; [auto|]. split; [discriminate|].
      intros [_ HP]. apply ParseTime_None in Ht. tauto.
  - rewrite (adapter_absent tz src name spy req Hp). simpl.
    unfold deadline_test.after. cbn [fold_left].
    unfold deadline_test.ServeHTTP. rewrite HN.
    split; [auto|]. split; [discriminate|]. split; [discriminate|].
    simpl. split; [discriminate|]. intros [? _]. discriminate.
Qed.

Lemma X6_what_the_spy_records_witness :
  deadline_test.after
    (calls (trace (adapter UTC InHeader "X-MTP-Deadline" spy
                     (headerRequest "X-Mtp-Deadline" fixtureRFC850 None) world0)))
  = {| deadline_test.Deadline := deadline_test.now; deadline_test.OK := true |}.
Proof.
  apply (X6_what_the_spy_records UTC InHeader "X-MTP-Deadline"
           (headerRequest "X-Mtp-Deadline" fixtureRFC850 None) world0).
  - reflexivity.
  - reflexivity.
  - vm_compute. reflexivity.
Defined.

(** *** Letter case of header names *)

Lemma lowerByte_valid (c : ascii) :
  validHeaderFieldByte (lowerByte c) = validHeaderFieldByte c.
Proof. destruct c as [[] [] [] [] [] [] [] []]; reflexivity. Qed.

Lemma canonByte_lowerByte (upper : bool) (c : ascii) :
  canonByte upper (lowerByte c) = canonByte upper c.
Proof. destruct c as [[] [] [] [] [] [] [] []]; destruct upper; reflexivity. Qed.

Lemma lowerByte_canonByte (upper : bool) (c : ascii) :
  lowerByte (canonByte upper c) = lowerByte c.
Proof. destruct c as [[] [] [] [] [] [] [] []]; destruct upper; reflexivity. Qed.

Lemma allValid_toLower (s : string) : allValid (toLower s) = allValid s.
Proof.
  induction s as [|c r IH]; simpl; [reflexivity|].
  rewrite lowerByte_valid, IH. reflexivity.
Qed.

Lemma canonicalize_toLower (s : string) (upper : bool) :
  canonicalize upper (toLower s) = canonicalize upper s.
Proof.
  revert upper. induction s as [|c r IH]; intros upper; simpl; [reflexivity|].
  rewrite canonByte_lowerByte, IH. reflexivity.
Qed.

Lemma toLower_canonicalize (s : string) (upper : bool) :
  toLower (canonicalize upper s) = toLower s.
Proof.
  revert upper. induction s as [|c r IH]; intros upper; simpl; [reflexivity|].
  rewrite lowerByte_canonByte, IH. reflexivity.
Qed.

(** X7.  Canonicalizing a header name changes nothing but the case of its
    ASCII letters.  For a name made of token characters the canonical key
    depends on the name up to letter case only, so [FromHeader] built
    with any case variant of such a name is the same adapter.  A name
    with any other byte (a space, a colon) is its own canonical key: it
    is looked up exactly as written. *)
Theorem X7_header_name_letter_case (tz : Location) (name name' : string)
  (h : Handler) (req : Request) :
  toLower (CanonicalHeaderKey name) = toLower name /\
  (allValid name = true ->
   toLower name' = toLower name ->
   CanonicalHeaderKey name' = CanonicalHeaderKey name /\
   FromHeader tz name' h req = FromHeader tz name h req) /\
  (allValid name = false ->
   CanonicalHeaderKey name = name /\
   (present InHeader name req = true <-> is_Some (Header req !! name))).
Proof.
  split; [|split].
  - unfold CanonicalHeaderKey, CanonicalMIMEHeaderKey.
    destruct (allValid name); [apply toLower_canonicalize | reflexivity].
  - intros Hv Hl.
    assert (CanonicalHeaderKey name' = CanonicalHeaderKey name) as E.
    { unfold CanonicalHeaderKey, CanonicalMIMEHeaderKey.
      assert (allValid name' = true) as Hv'
        by (rewrite <- allValid_toLower, Hl, allValid_toLower; exact Hv).
      rewrite Hv, Hv'.
      rewrite <- (canonicalize_toLower name'), Hl. apply canonicalize_toLower. }
    split; [exact E|].
    unfold FromHeader, Header_Get. unfold CanonicalHeaderKey in E.
    unfold CanonicalHeaderKey. rewrite E. reflexivity.
  - intros Hv.
    assert (CanonicalHeaderKey name = name) as E
      by (unfold CanonicalHeaderKey, CanonicalMIMEHeaderKey; rewrite Hv; reflexivity).
    split; [exact E|]. simpl. rewrite E.
    destruct (Header req !! name); split; eauto; try discriminate.
    intros [? ?]; discriminate.
Qed.

Lemma X7_header_name_letter_case_witness :
  (CanonicalHeaderKey "x-MTP-deadline" = CanonicalHeaderKey "X-Mtp-Deadline" /\
   FromHeader UTC "x-MTP-deadline" spy bareRequest
   = FromHeader UTC "X-Mtp-Deadline" spy bareRequest) /\
  CanonicalHeaderKey "x deadline" = "x deadline".
Proof.
  split.
  - apply (X7_header_name_letter_case UTC "X-Mtp-Deadline" "x-MTP-deadline"
             spy bareRequest); reflexivity.
  - apply (X7_header_name_letter_case UTC "x deadline" "" spy bareRequest).
    reflexivity.
Defined.

(* ===================================================================== *)
(** ** [ParseTime] on what [Format] writes                                *)
(* ===================================================================== *)

Import gostring format.


Lemma isLeap_spec (y : Z) :
  isLeap y = true <-> (y mod 4 = 0 /\ (y mod 100 <> 0 \/ y mod 400 = 0)).
Proof.
  unfold isLeap. rewrite andb_true_iff, orb_true_iff, negb_true_iff.
  rewrite !Z.eqb_eq, Z.eqb_neq. tauto.
Qed.

Lemma absYearDay_spec (d : Z) :
  let '(y, yday) := absYearDay d in
  daysSinceEpoch y + unixEpochDay + yday = d /\
  0 <= yday < (if isLeap y then 366 else 365).
Proof.
  unfold absYearDay, daysSinceEpoch, leapsThrough, unixEpochDay.
  rewrite !Z.shiftr_div_pow2 by lia. change (2 ^ 2) with 4.
  set (n400 := d / 146097).
  set (d1 := d - 146097 * n400).
  set (q100 := d1 / 36524).
  set (n100 := q100 - q100 / 4).
  set (d2 := d1 - 36524 * n100).
  set (n4 := d2 / 1461).
  set (d3 := d2 - 1461 * n4).
  set (q1 := d3 / 365).
  set (n1 := q1 - q1 / 4).
  set (d4 := d3 - 365 * n1).
  assert (0 <= d1 < 146097) by (unfold d1, n400; Z.div_mod_to_equations; lia).
  assert (0 <= q100 <= 4) by (unfold q100; Z.div_mod_to_equations; lia).
  assert (0 <= n100 <= 3 /\ (q100 = 4 -> n100 = 3) /\ (q100 < 4 -> n100 = q100))
    by (unfold n100; Z.div_mod_to_equations; lia).
  assert (0 <= d2 < 36525 /\ (n100 < 3 -> d2 < 36524))
    by (unfold d2, q100 in *; Z.div_mod_to_equations; lia).
  assert (0 <= n4 <= 24 /\ 0 <= d3 < 1461)
    by (unfold d3, n4; Z.div_mod_to_equations; lia).
  assert (0 <= q1 <= 4) by (unfold q1; Z.div_mod_to_equations; lia).
  assert (0 <= n1 <= 3 /\ (q1 = 4 -> n1 = 3) /\ (q1 < 4 -> n1 = q1))
    by (unfold n1; Z.div_mod_to_equations; lia).
  assert (0 <= d4 < 366 /\ (n1 < 3 -> d4 < 365))
    by (unfold d4, q1 in *; Z.div_mod_to_equations; lia).
  set (y := 400 * n400 + 100 * n100 + 4 * n4 + n1 + 1).
  assert (n4 = 24 -> n100 < 3 -> d3 < 1460).
  { unfold d3, n4 in *. Z.div_mod_to_equations. lia. }
  split.
  - unfold y, d4, d3, d2, d1. change (1969 / 4 - 1969 / 100 + 1969 / 400) with 477.
    Z.div_mod_to_equations. lia.
  - split; [lia|].
    destruct (isLeap y) eqn:HL; [lia|].
    assert (~ (y mod 4 = 0 /\ (y mod 100 <> 0 \/ y mod 400 = 0))) as HnL
      by (rewrite <- isLeap_spec, HL; discriminate).
    destruct (Z.eq_dec n1 3) as [E|]; [|lia].
    assert (n4 = 24 /\ n100 < 3) as [E4 E100].
    { unfold y in HnL. rewrite E in HnL. clearbody n400 n100 n4.
      clear - HnL H1 H3. Z.div_mod_to_equations. lia. }
    unfold d4. rewrite E. lia.
Qed.

Lemma monthDay_common (L : bool) (year day : Z) :
  isLeap year = L ->
  0 <= day < 365 ->
  let month := day / 31 in
  let end_ := daysBeforeMonth (month + 1) in
  let '(month, begin) :=
    if end_ <=? day then (month + 1, end_)
    else (month, daysBeforeMonth month) in
  let m := month + 1 in
  let dd := day - begin + 1 in
  1 <= m <= 12 /\
  daysBeforeMonth (m - 1) + (dd - 1) = day /\
  1 <= dd /\
  dd <= daysBeforeMonth m - daysBeforeMonth (m - 1).
Proof.
  intros HL Hd.
  assert (0 <= day / 31 <= 11) as Hk by (Z.div_mod_to_equations; lia).
  assert (31 * (day / 31) <= day < 31 * (day / 31) + 31) as Hr
    by (Z.div_mod_to_equations; lia).
  set (k := day / 31) in *.
  assert (k = 0 \/ k = 1 \/ k = 2 \/ k = 3 \/ k = 4 \/ k = 5 \/ k = 6 \/
          k = 7 \/ k = 8 \/ k = 9 \/ k = 10 \/ k = 11) as Hc by lia.
  clearbody k.
  repeat (destruct Hc as [-> | Hc]); try subst k; cbv zeta;
    match goal with
    | |- context [daysBeforeMonth ?a <=? day] =>
        let v := eval vm_compute in (daysBeforeMonth a) in
        change (daysBeforeMonth a) with v
    end;
    match goal with
    | |- context [?a <=? day] =>
        destruct (Z.leb_spec a day)
    end; vm_compute daysBeforeMonth; cbn; lia.
Qed.

Lemma monthDay_spec (year yday : Z) :
  0 <= yday < (if isLeap year then 366 else 365) ->
  let '(m, dd) := monthDay year yday in
  1 <= m <= 12 /\
  1 <= dd <= daysIn m year /\
  daysBeforeMonth (m - 1) + (if isLeap year && (3 <=? m) then 1 else 0)
  + (dd - 1) = yday.
Proof.
  intros Hy. unfold monthDay.
  destruct (isLeap year) eqn:HL; cbn [andb].
  - destruct (Z.eqb_spec yday (31 + 29 - 1)) as [->|Hne].
    + unfold daysIn. rewrite HL. vm_compute. repeat split; discriminate.
    + destruct (Z.ltb_spec (31 + 29 - 1) yday) as [Hgt|Hle].
      * pose proof (monthDay_common true year (yday - 1) HL ltac:(lia)) as H.
        cbv zeta in H.
        destruct (daysBeforeMonth ((yday - 1) / 31 + 1) <=? yday - 1);
          destruct H as (Hm & Hsum & Hd1 & Hd2);
          match type of Hm with
          | 1 <= ?m <= 12 =>
              set (mm := m) in *;
              assert (mm = 1 \/ mm = 2 \/ mm = 3 \/ mm = 4 \/ mm = 5 \/ mm = 6 \/
                      mm = 7 \/ mm = 8 \/ mm = 9 \/ mm = 10 \/ mm = 11 \/ mm = 12)
                as Hc by lia;
              clearbody mm
          end;
          unfold daysIn; rewrite HL;
          repeat (destruct Hc as [-> | Hc]); try subst mm;
          vm_compute daysBeforeMonth in *; cbn in *; lia.
      * pose proof (monthDay_common true year yday HL ltac:(lia)) as H.
        cbv zeta in H.
        destruct (daysBeforeMonth (yday / 31 + 1) <=? yday);
          destruct H as (Hm & Hsum & Hd1 & Hd2);
          match type of Hm with
          | 1 <= ?m <= 12 =>
              set (mm := m) in *;
              assert (mm = 1 \/ mm = 2 \/ mm = 3 \/ mm = 4 \/ mm = 5 \/ mm = 6 \/
                      mm = 7 \/ mm = 8 \/ mm = 9 \/ mm = 10 \/ mm = 11 \/ mm = 12)
                as Hc by lia;
              clearbody mm
          end;
          unfold daysIn; rewrite HL;
          repeat (destruct Hc as [-> | Hc]); try subst mm;
          vm_compute daysBeforeMonth in *; cbn in *; lia.
  - pose proof (monthDay_common false year yday HL ltac:(lia)) as H.
    cbv zeta in H.
    destruct (daysBeforeMonth (yday / 31 + 1) <=? yday);
      destruct H as (Hm & Hsum & Hd1 & Hd2);
      match type of Hm with
      | 1 <= ?m <= 12 =>
          set (mm := m) in *;
          assert (mm = 1 \/ mm = 2 \/ mm = 3 \/ mm = 4 \/ mm = 5 \/ mm = 6 \/
                  mm = 7 \/ mm = 8 \/ mm = 9 \/ mm = 10 \/ mm = 11 \/ mm = 12)
            as Hc by lia;
          clearbody mm
      end;
      unfold daysIn; rewrite HL;
      repeat (destruct Hc as [-> | Hc]); try subst mm;
      vm_compute daysBeforeMonth in *; cbn in *; lia.
Qed.

Lemma append_assoc_ (a b c : string) :
  ((a ++ b) ++ c = a ++ (b ++ c))%string.
Proof.
  induction a as [|x a IH]; [reflexivity|].
  change (String x ((a ++ b) ++ c) = String x (a ++ (b ++ c)))%string.
  rewrite IH. reflexivity.
Qed.

Lemma range_cases (K : nat) (P : Z -> Prop) :
  (forall i : nat, (i < K)%nat -> P (Z.of_nat i)) ->
  forall n, 0 <= n < Z.of_nat K -> P n.
Proof.
  intros H n Hn. rewrite <- (Z2Nat.id n) by lia. apply H. lia.
Qed.

Ltac enum_nat i tac :=
  repeat (destruct i as [|i]; [tac|]); exfalso; lia.

Lemma appendInt_2 (n : Z) :
  0 <= n < 100 ->
  appendInt n 2 = String (digitChar (n / 10)) (String (digitChar (n mod 10)) "").
Proof.
  revert n. apply (range_cases 100). intros i Hi.
  enum_nat i ltac:(reflexivity).
Qed.

Lemma decimal_step (fuel : nat) (u : Z) :
  decimal (S fuel) u
  = ((if (u <? 10)%Z then "" else decimal fuel (u / 10)%Z)
     ++ String (digitChar (u mod 10)%Z) "")%string.
Proof. reflexivity. Qed.

Lemma appendInt_4 (n : Z) :
  0 <= n < 10000 ->
  appendInt n 4
  = String (digitChar (n / 1000))
      (String (digitChar (n / 100 mod 10))
         (String (digitChar (n / 10 mod 10))
            (String (digitChar (n mod 10)) ""))).
Proof.
  intros Hn. unfold appendInt.
  destruct (Z.ltb_spec n 0); [lia|]. rewrite Z.abs_eq by lia.
  rewrite decimal_step.
  destruct (Z.ltb_spec n 10).
  { rewrite !Z.div_small by lia. rewrite (Z.mod_small 0) by lia. reflexivity. }
  rewrite decimal_step.
  destruct (Z.ltb_spec (n / 10) 10).
  { rewrite (Z.div_small n 1000), (Z.div_small n 100) by (Z.div_mod_to_equations; lia).
    rewrite (Z.mod_small 0) by lia. reflexivity. }
  rewrite decimal_step. rewrite !Z.div_div by lia. change (10 * 10) with 100.
  destruct (Z.ltb_spec (n / 100) 10).
  { rewrite (Z.div_small n 1000) by (Z.div_mod_to_equations; lia).
    reflexivity. }
  rewrite decimal_step. rewrite !Z.div_div by lia. change (100 * 10) with 1000.
  destruct (Z.ltb_spec (n / 1000) 10); [|exfalso; Z.div_mod_to_equations; lia].
  rewrite (Z.mod_small (n / 1000)) by (Z.div_mod_to_equations; lia). reflexivity.
Qed.

Section Steps.
Variables (zn : string) (zo : Z) (y m d h mi se wd : Z) (cs : list (string * std)) (f : fields).

Lemma step_weekday (rest : string) :
  0 <= wd < 7 ->
  parseChunks (("", stdWeekDay) :: cs)
    ("" ++ formatStd zn zo stdWeekDay y m d h mi se wd ++ rest) f
  = parseChunks cs rest f.
Proof.
  revert wd. apply (range_cases 7). intros i Hi.
  enum_nat i ltac:(reflexivity).
Qed.

Lemma step_long_weekday (rest : string) :
  0 <= wd < 7 ->
  (exists c1 c2 c3 r, rest = String c1 (String c2 (String c3 r))) ->
  parseChunks (("", stdLongWeekDay) :: cs)
    ("" ++ formatStd zn zo stdLongWeekDay y m d h mi se wd ++ rest) f
  = parseChunks cs rest f.
Proof.
  intros Hwd (c1 & c2 & c3 & r & ->). revert wd Hwd.
  apply (range_cases 7). intros i Hi.
  enum_nat i ltac:(reflexivity).
Qed.

Lemma step_zero_day (pfx rest : string) :
  pfx = ", " ->
  0 <= d < 32 ->
  parseChunks ((pfx, stdZeroDay) :: cs)
    (pfx ++ formatStd zn zo stdZeroDay y m d h mi se wd ++ rest) f
  = parseChunks cs rest (set_day f d).
Proof.
  intros ->. revert d. apply (range_cases 32). intros i Hi.
  enum_nat i ltac:(reflexivity).
Qed.

Lemma step_under_day (rest : string) :
  0 <= d < 32 ->
  (exists r, rest = String " " r) ->
  parseChunks ((" ", stdUnderDay) :: cs)
    (" " ++ formatStd zn zo stdUnderDay y m d h mi se wd ++ rest) f
  = parseChunks cs rest (set_day f d).
Proof.
  intros Hd (r & ->). revert d Hd. apply (range_cases 32). intros i Hi.
  enum_nat i ltac:(reflexivity).
Qed.

Lemma step_month (pfx rest : string) :
  pfx = " " \/ pfx = "-" ->
  1 <= m < 13 ->
  parseChunks ((pfx, stdMonth) :: cs)
    (pfx ++ formatStd zn zo stdMonth y m d h mi se wd ++ rest) f
  = parseChunks cs rest (set_month f m).
Proof.
  intros Hp Hm. assert (0 <= m < 13) as Hm' by lia. revert m Hm' Hm.
  apply (range_cases 13 (fun m => 1 <= m < 13 -> _)). intros i Hi Hm.
  destruct Hp as [-> | ->];
    (destruct i as [|i]; [lia|]); enum_nat i ltac:(reflexivity).
Qed.

Lemma step_hour (rest : string) :
  0 <= h < 24 ->
  parseChunks ((" ", stdHour) :: cs)
    (" " ++ formatStd zn zo stdHour y m d h mi se wd ++ rest) f
  = parseChunks cs rest (set_hour f h).
Proof.
  revert h. apply (range_cases 24). intros i Hi.
  enum_nat i ltac:(reflexivity).
Qed.

Lemma step_minute (rest : string) :
  0 <= mi < 60 ->
  parseChunks ((":", stdZeroMinute) :: cs)
    (":" ++ formatStd zn zo stdZeroMinute y m d h mi se wd ++ rest) f
  = parseChunks cs rest (set_min f mi).
Proof.
  revert mi. apply (range_cases 60). intros i Hi.
  enum_nat i ltac:(reflexivity).
Qed.

Lemma step_second (rest : string) :
  0 <= se < 60 ->
  (exists r, rest = String " " r) ->
  parseChunks ((":", stdZeroSecond) :: cs)
    (":" ++ formatStd zn zo stdZeroSecond y m d h mi se wd ++ rest) f
  = parseChunks cs rest (set_sec f se).
Proof.
  intros Hs (r & ->). revert se Hs. apply (range_cases 60). intros i Hi.
  enum_nat i ltac:(destruct r; reflexivity).
Qed.

Lemma step_year2 (rest : string) :
  0 <= y ->
  parseChunks (("-", stdYear) :: cs)
    ("-" ++ formatStd zn zo stdYear y m d h mi se wd ++ rest) f
  = parseChunks cs rest
      (set_year f (if 69 <=? y mod 100 then y mod 100 + 1900 else y mod 100 + 2000)).
Proof.
  intros Hy. unfold formatStd. rewrite Z.abs_eq by lia.
  assert (0 <= y mod 100 < 100) as Hk by (Z.div_mod_to_equations; lia).
  revert Hk. generalize (y mod 100). apply (range_cases 100). intros i Hi.
  enum_nat i ltac:(reflexivity).
Qed.

End Steps.

Lemma digit_byte_facts (c : ascii) :
  isDigitByte c = true ->
  Ascii.eqb c " " = false /\ Ascii.eqb c "-" = false /\ Ascii.eqb c "+" = false /\
  0 <= byte c - 48 <= 9.
Proof.
  destruct c as [[] [] [] [] [] [] [] []]; intros H; try discriminate H;
    vm_compute; repeat split; congruence.
Qed.

Lemma digitChar_digit (a : Z) :
  0 <= a < 10 -> isDigitByte (digitChar a) = true /\ byte (digitChar a) - 48 = a.
Proof.
  revert a. apply (range_cases 10). intros i Hi.
  enum_nat i ltac:(split; reflexivity).
Qed.

Lemma leadingInt_from_cons (x : Z) (c : ascii) (r : string) :
  leadingInt_from x (String c r)
  = if isDigitByte c then
      if 2 ^ 63 / 10 <? x then None
      else if 2 ^ 63 <? x * 10 + byte c - 48 then None
           else leadingInt_from (x * 10 + byte c - 48) r
    else Some (x, String c r).
Proof. reflexivity. Qed.

Lemma leadingInt_from_digit (x a : Z) (r : string) :
  0 <= a < 10 -> 0 <= x < 1000000 ->
  leadingInt_from x (String (digitChar a) r) = leadingInt_from (x * 10 + a) r.
Proof.
  intros Ha Hx. destruct (digitChar_digit a Ha) as [Hd Hb].
  rewrite leadingInt_from_cons, Hd.
  change (2 ^ 63 / 10) with 922337203685477580.
  change (2 ^ 63) with 9223372036854775808.
  replace (x * 10 + byte (digitChar a) - 48) with (x * 10 + a) by lia.
  destruct (Z.ltb_spec 922337203685477580 x); [lia|].
  destruct (Z.ltb_spec 9223372036854775808 (x * 10 + a)); [lia|]. reflexivity.
Qed.

Lemma parseStd_long_year_eq (c1 c2 c3 c4 : ascii) (rest : string) (f : fields) :
  parseStd stdLongYear (String c1 (String c2 (String c3 (String c4 rest)))) f
  = if negb (isDigitByte c1) then None
    else match atoi (String c1 (String c2 (String c3 (String c4 ""))))  with
         | Some v => Some (set_year f v, rest)
         | None => None
         end.
Proof. reflexivity. Qed.

Lemma atoi_digits (a b c e : Z) :
  0 <= a < 10 -> 0 <= b < 10 -> 0 <= c < 10 -> 0 <= e < 10 ->
  atoi (String (digitChar a) (String (digitChar b)
          (String (digitChar c) (String (digitChar e) ""))))
  = Some (((a * 10 + b) * 10 + c) * 10 + e).
Proof.
  intros Ha Hb Hc He. unfold atoi.
  destruct (digitChar_digit a Ha) as [Hd _].
  destruct (digit_byte_facts _ Hd) as (_ & -> & -> & _).
  unfold leadingInt.
  rewrite leadingInt_from_digit by lia.
  rewrite leadingInt_from_digit by lia.
  rewrite leadingInt_from_digit by lia.
  rewrite leadingInt_from_digit by lia.
  reflexivity.
Qed.

Lemma skip_space (c : ascii) (r : string) :
  Ascii.eqb c " " = false ->
  skip (String " " (String c r)) " " = Some (String c r).
Proof.
  intros H. unfold skip. cbn [len String.length skip_fuel].
  change (Ascii.eqb " " " ") with true. cbv iota.
  cbn [cutspace]. change (Ascii.eqb " " " ") with true. cbv iota.
  cbn [cutspace]. rewrite H. reflexivity.
Qed.

Section StepYear.
Variables (zn : string) (zo : Z) (y m d h mi se wd : Z) (cs : list (string * std)) (f : fields).

Lemma step_long_year (rest : string) :
  0 <= y < 10000 ->
  parseChunks ((" ", stdLongYear) :: cs)
    (" " ++ formatStd zn zo stdLongYear y m d h mi se wd ++ rest) f
  = parseChunks cs rest (set_year f y).
Proof.
  intros Hy. unfold formatStd. rewrite appendInt_4 by exact Hy.
  set (a := y / 1000). set (b := y / 100 mod 10).
  set (c := y / 10 mod 10). set (e := y mod 10).
  assert (0 <= a < 10 /\ 0 <= b < 10 /\ 0 <= c < 10 /\ 0 <= e < 10 /\
          ((a * 10 + b) * 10 + c) * 10 + e = y) as (Ha & Hb & Hc & He & Hsum)
    by (unfold a, b, c, e; Z.div_mod_to_equations; lia).
  destruct (digitChar_digit a Ha) as [Hd _].
  destruct (digit_byte_facts _ Hd) as (Hsp & _).
  change (match skip (String " " (String (digitChar a) (String (digitChar b)
                 (String (digitChar c) (String (digitChar e) rest))))) " " with
          | Some value =>
              match parseStd stdLongYear value f with
              | Some (f', value') => parseChunks cs value' f'
              | None => None
              end
          | None => None
          end = parseChunks cs rest (set_year f y)).
  rewrite (skip_space _ _ Hsp), parseStd_long_year_eq, Hd.
  rewrite (atoi_digits a b c e Ha Hb Hc He), Hsum. reflexivity.
Qed.

Lemma step_utc :
  parseChunks [(" ", stdTZ)]
    (" " ++ formatStd "UTC" zo stdTZ y m d h mi se wd ++ "") f
  = Some (set_utc f, "").
Proof. reflexivity. Qed.

End StepYear.

(** *** The calendar *)
Lemma daysSinceEpoch_succ (y : Z) :
  daysSinceEpoch (y + 1) = daysSinceEpoch y + (if isLeap y then 366 else 365).
Proof.
  unfold daysSinceEpoch, leapsThrough. replace (y + 1 - 1) with y by lia.
  destruct (isLeap y) eqn:HL.
  - apply isLeap_spec in HL. Z.div_mod_to_equations. lia.
  - assert (~ (y mod 4 = 0 /\ (y mod 100 <> 0 \/ y mod 400 = 0))) as HnL
      by (rewrite <- isLeap_spec, HL; discriminate).
    Z.div_mod_to_equations. lia.
Qed.

Lemma daysSinceEpoch_mono (a b : Z) :
  a <= b -> daysSinceEpoch a <= daysSinceEpoch b.
Proof.
  intros H. unfold daysSinceEpoch, leapsThrough. Z.div_mod_to_equations. lia.
Qed.

Lemma daysSinceEpoch_gap (a b : Z) :
  a < b -> daysSinceEpoch a + 365 <= daysSinceEpoch b.
Proof.
  intros H. pose proof (daysSinceEpoch_mono (a + 1) b ltac:(lia)).
  rewrite daysSinceEpoch_succ in H0. destruct (isLeap a); lia.
Qed.

(** The fields [Format] computes for [t], and what [Date] makes of them. *)
Lemma civil_fields (t : Time) :
  let unix := Unix t in
  let dd := unix / 86400 + unixEpochDay in
  let clock := unix mod 86400 in
  let hh := clock / 3600 in
  let mi := clock mod 3600 / 60 in
  let se := clock mod 60 in
  forall y m d, absDate dd = (y, m, d) ->
  1 <= m < 13 /\ 1 <= d <= daysIn m y /\ d < 32 /\
  0 <= hh < 24 /\ 0 <= mi < 60 /\ 0 <= se < 60 /\
  0 <= absWeekday dd < 7 /\
  Date y m d hh mi se 0 = t - t mod 1000000000 /\
  daysSinceEpoch y <= unix / 86400 < daysSinceEpoch (y + 1).
Proof.
  intros unix dd clock hh mi se y m d Habs.
  unfold absDate in Habs.
  pose proof (absYearDay_spec dd) as HY.
  destruct (absYearDay dd) as [y' yday].
  destruct HY as [Hsum Hyd].
  pose proof (monthDay_spec y' yday Hyd) as HM.
  destruct (monthDay y' yday) as [m' d'].
  inversion Habs; subst y' m' d'. destruct HM as (Hm & Hd & Hmd).
  assert (0 <= clock < 86400) as Hc by (unfold clock; Z.div_mod_to_equations; lia).
  assert (d < 32) as Hd32.
  { destruct Hd as [_ Hd]. unfold daysIn in Hd.
    assert (m = 1 \/ m = 2 \/ m = 3 \/ m = 4 \/ m = 5 \/ m = 6 \/ m = 7 \/
            m = 8 \/ m = 9 \/ m = 10 \/ m = 11 \/ m = 12) as Hc' by lia.
    repeat (destruct Hc' as [-> | Hc']); try subst m;
      destruct (isLeap y); unfold daysBeforeMonth, daysBefore in Hd;
      simpl in Hd; lia. }
  split; [lia|]. split; [exact Hd|]. split; [exact Hd32|].
  split; [unfold hh; Z.div_mod_to_equations; lia|].
  split; [unfold mi; Z.div_mod_to_equations; lia|].
  split; [unfold se; Z.div_mod_to_equations; lia|].
  split; [unfold absWeekday; Z.div_mod_to_equations; lia|].
  split.
  - unfold Date. rewrite Z.add_0_r.
    assert (hh * 3600 + mi * 60 + se = clock) as Hclk
      by (unfold hh, mi, se; Z.div_mod_to_equations; lia).
    assert (daysSinceEpoch y + daysBeforeMonth (m - 1)
            + (if isLeap y && (3 <=? m) then 1 else 0) + (d - 1)
            = unix / 86400) as Hday by (unfold dd, unixEpochDay in *; lia).
    rewrite Hday.
    replace (unix / 86400 * 86400 + hh * 3600 + mi * 60 + se) with unix
      by (unfold clock in Hclk; Z.div_mod_to_equations; lia).
    unfold unix, Unix. Z.div_mod_to_equations. lia.
  - rewrite daysSinceEpoch_succ. unfold dd, unixEpochDay in *.
    destruct (isLeap y); lia.
Qed.


Section Assembly.
Variables (zn : string) (zo : Z) (y m d h mi se wd : Z).
Hypotheses (Hm : 1 <= m < 13) (Hd : 0 <= d < 32) (Hh : 0 <= h < 24)
  (Hmi : 0 <= mi < 60) (Hse : 0 <= se < 60) (Hwd : 0 <= wd < 7).

Lemma parseChunks_TimeFormat :
  0 <= y < 10000 ->
  parseChunks (chunks TimeFormat)
    (formatChunks zn zo (chunks TimeFormat) y m d h mi se wd ++ trailer TimeFormat)
    fields0
  = Some (civil y m d h mi se false, " GMT").
Proof.
  intros Hy. cbn [chunks TimeFormat formatChunks trailer].
  rewrite !append_assoc_.
  rewrite step_weekday by exact Hwd.
  rewrite step_zero_day by (reflexivity || exact Hd).
  rewrite step_month by (auto || exact Hm).
  rewrite step_long_year by exact Hy.
  rewrite step_hour by exact Hh.
  rewrite step_minute by exact Hmi.
  rewrite step_second by (exact Hse || (eexists; reflexivity)).
  reflexivity.
Qed.

Lemma parseChunks_ANSIC :
  0 <= y < 10000 ->
  parseChunks (chunks ANSIC)
    (formatChunks zn zo (chunks ANSIC) y m d h mi se wd ++ trailer ANSIC) fields0
  = Some (civil y m d h mi se false, "").
Proof.
  intros Hy. cbn [chunks ANSIC formatChunks trailer].
  rewrite !append_assoc_.
  rewrite step_weekday by exact Hwd.
  rewrite step_month by (auto || exact Hm).
  rewrite step_under_day by (exact Hd || (eexists; reflexivity)).
  rewrite step_hour by exact Hh.
  rewrite step_minute by exact Hmi.
  rewrite step_second by (exact Hse || (eexists; reflexivity)).
  rewrite step_long_year by exact Hy.
  reflexivity.
Qed.

Lemma parseChunks_RFC850 :
  0 <= y ->
  parseChunks (chunks RFC850)
    (formatChunks "UTC" zo (chunks RFC850) y m d h mi se wd
     ++ trailer RFC850) fields0
  = Some (civil (if 69 <=? y mod 100 then y mod 100 + 1900 else y mod 100 + 2000)
                m d h mi se true, "").
Proof.
  intros Hy. cbn [chunks RFC850 formatChunks trailer].
  rewrite !append_assoc_.
  rewrite step_long_weekday.
  2: exact Hwd.
  2: { unfold formatStd at 1. rewrite appendInt_2 by lia.
       eexists _, _, _, _. reflexivity. }
  rewrite step_zero_day by (reflexivity || exact Hd).
  rewrite step_month by (auto || exact Hm).
  rewrite step_year2 by exact Hy.
  rewrite step_hour by exact Hh.
  rewrite step_minute by exact Hmi.
  rewrite step_second by (exact Hse || (eexists; reflexivity)).
  rewrite step_utc. reflexivity.
Qed.

End Assembly.

Lemma Parse_of_fields (tz : Location) (layout : Layout) (value : string)
  (F : fields) :
  parseChunks (chunks layout) value fields0 = Some (F, trailer layout) ->
  skip (trailer layout) (trailer layout) = Some "" ->
  1 <= day F <= daysIn (month F) (year F) ->
  z_utc F = true \/ zoneName F = "" ->
  Parse tz layout value
  = Some (Date (year F) (month F) (day F) (hour F) (min F) (sec F) (nsec F)).
Proof.
  intros HP HS Hd Hz. unfold Parse. rewrite HP, HS.
  destruct (Z.ltb_spec (day F) 1); [lia|].
  destruct (Z.ltb_spec (daysIn (month F) (year F)) (day F)); [lia|].
  cbn [orb]. destruct (z_utc F); [reflexivity|].
  destruct Hz as [Hz | ->]; [discriminate|]. reflexivity.
Qed.

Section Mismatch.
Variables (zn : string) (zo : Z) (y m d h mi se wd : Z) (cs : list (string * std)) (f : fields).

(** An ANSIC encoding under the layouts tried before ANSIC. *)
Lemma short_weekday_then_comma (X : string) :
  0 <= wd < 7 ->
  parseChunks (("", stdWeekDay) :: (", ", stdZeroDay) :: cs)
    ("" ++ formatStd zn zo stdWeekDay y m d h mi se wd ++ String " " X) f = None.
Proof.
  revert wd. apply (range_cases 7). intros i Hi.
  enum_nat i ltac:(reflexivity).
Qed.

Lemma long_weekday_on_short (X : string) :
  0 <= wd < 7 ->
  parseChunks (("", stdLongWeekDay) :: cs)
    ("" ++ formatStd zn zo stdWeekDay y m d h mi se wd ++ String " " X) f = None.
Proof.
  revert wd. apply (range_cases 7). intros i Hi.
  enum_nat i ltac:(destruct X as [|c1 [|c2 [|c3 [|c4 [|c5 X]]]]]; reflexivity).
Qed.

(** An RFC 850 encoding under the layout tried before RFC 850. *)
Lemma short_weekday_on_long (rest : string) :
  0 <= wd < 7 ->
  parseChunks (("", stdWeekDay) :: (", ", stdZeroDay) :: cs)
    ("" ++ formatStd zn zo stdLongWeekDay y m d h mi se wd ++ rest) f = None.
Proof.
  revert wd. apply (range_cases 7). intros i Hi.
  enum_nat i ltac:(reflexivity).
Qed.

End Mismatch.

Lemma Parse_None (tz : Location) (layout : Layout) (value : string) :
  parseChunks (chunks layout) value fields0 = None ->
  Parse tz layout value = None.
Proof. intros H. unfold Parse. rewrite H. reflexivity. Qed.


Lemma year_range (t : Time) (lo hi y : Z) :
  Date lo 1 1 0 0 0 0 <= t < Date hi 1 1 0 0 0 0 ->
  daysSinceEpoch y <= Unix t / 86400 < daysSinceEpoch (y + 1) ->
  lo <= y < hi.
Proof.
  unfold Date, Unix. change (daysBeforeMonth (1 - 1)) with 0.
  replace (if isLeap lo && (3 <=? 1) then 1 else 0) with 0
    by (destruct (isLeap lo); reflexivity).
  replace (if isLeap hi && (3 <=? 1) then 1 else 0) with 0
    by (destruct (isLeap hi); reflexivity).
  intros Ht Hy.
  assert (daysSinceEpoch lo <= t / 1000000000 / 86400 < daysSinceEpoch hi)
    by (Z.div_mod_to_equations; lia).
  split.
  - destruct (Z.le_gt_cases lo y); [assumption|].
    pose proof (daysSinceEpoch_mono (y + 1) lo ltac:(lia)). lia.
  - destruct (Z.lt_ge_cases y hi); [assumption|].
    pose proof (daysSinceEpoch_mono hi y ltac:(lia)). lia.
Qed.

(** [Format] writes the fields of the wall clock, and the zone of the
    value where the layout asks for it. *)
Lemma Format_wall (layout : Layout) (t : Located) :
  Format layout t
  = (let unix := Unix (wallClock t) in
     let dd := unix / 86400 + unixEpochDay in
     let '(y, m, d) := absDate dd in
     let clock := unix mod 86400 in
     formatChunks (fst (zoneOf t)) (snd (zoneOf t)) (chunks layout) y m d
       (clock / 3600) (clock mod 3600 / 60) (clock mod 60) (absWeekday dd)
     ++ trailer layout)%string.
Proof.
  unfold Format, locabs, wallClock, zoneOf, addSec, Unix.
  destruct (loc t (instant t / 1000000000)) as [zn zo]. cbn [fst snd].
  rewrite Z.div_add by lia. reflexivity.
Qed.

(** Moving an instant by whole seconds moves its whole-second part. *)
Lemma truncSecond_wallClock (t : Located) :
  truncSecond (wallClock t) = addSec (truncSecond (instant t)) (snd (zoneOf t)).
Proof.
  unfold truncSecond, wallClock, addSec.
  rewrite Z.mod_add by lia. lia.
Qed.

Lemma wallClock_UTC (t : Located) :
  zoneOf t = ("UTC", 0) -> wallClock t = instant t.
Proof. intros H. unfold wallClock, addSec. rewrite H. simpl. lia. Qed.

Lemma ParseTime_asTimeFormat (tz : Location) (t : Located) :
  Date 0 1 1 0 0 0 0 <= wallClock t < Date 10000 1 1 0 0 0 0 ->
  ParseTime tz (format.Format TimeFormat t) = Some (truncSecond (wallClock t)).
Proof.
  intros Ht. unfold ParseTime, timeFormats, parseFirst. rewrite Format_wall.
  set (u := wallClock t) in *. cbv zeta.
  destruct (absDate (Unix u / 86400 + unixEpochDay)) as [[y m] d] eqn:Habs.
  destruct (civil_fields u y m d Habs)
    as (Hm & Hd & Hd32 & Hh & Hmi & Hse & Hwd & HDate & Hyr).
  pose proof (year_range u 0 10000 y Ht Hyr) as Hy.
  rewrite (Parse_of_fields tz TimeFormat _ _
             (parseChunks_TimeFormat _ _ y m d _ _ _ _ Hm ltac:(lia) Hh Hmi Hse
                Hwd Hy)
             eq_refl Hd (or_intror eq_refl)).
  cbn [year month day hour min sec nsec civil]. rewrite HDate. reflexivity.
Qed.

Lemma ParseTime_asANSIC (tz : Location) (t : Located) :
  Date 0 1 1 0 0 0 0 <= wallClock t < Date 10000 1 1 0 0 0 0 ->
  ParseTime tz (format.Format ANSIC t) = Some (truncSecond (wallClock t)).
Proof.
  intros Ht. unfold ParseTime, timeFormats, parseFirst. rewrite Format_wall.
  set (u := wallClock t) in *. cbv zeta.
  destruct (absDate (Unix u / 86400 + unixEpochDay)) as [[y m] d] eqn:Habs.
  destruct (civil_fields u y m d Habs)
    as (Hm & Hd & Hd32 & Hh & Hmi & Hse & Hwd & HDate & Hyr).
  pose proof (year_range u 0 10000 y Ht Hyr) as Hy.
  rewrite (Parse_None tz TimeFormat).
  2: { cbn [chunks TimeFormat ANSIC formatChunks trailer].
       rewrite !append_assoc_. apply short_weekday_then_comma. exact Hwd. }
  rewrite (Parse_None tz RFC850).
  2: { cbn [chunks RFC850 ANSIC formatChunks trailer].
       rewrite !append_assoc_. apply long_weekday_on_short. exact Hwd. }
  rewrite (Parse_of_fields tz ANSIC _ _
             (parseChunks_ANSIC _ _ y m d _ _ _ _ Hm ltac:(lia) Hh Hmi Hse Hwd
                Hy)
             eq_refl Hd (or_intror eq_refl)).
  cbn [year month day hour min sec nsec civil]. rewrite HDate. reflexivity.
Qed.

Lemma window_year (y : Z) :
  0 <= y ->
  let yy := if 69 <=? y mod 100 then y mod 100 + 1900 else y mod 100 + 2000 in
  1969 <= yy < 2069 /\ (1969 <= y < 2069 -> yy = y) /\
  (isLeap y = true -> isLeap yy = true).
Proof.
  intros Hy yy. unfold yy.
  destruct (Z.leb_spec 69 (y mod 100)).
  - split; [Z.div_mod_to_equations; lia|]. split; [Z.div_mod_to_equations; lia|].
    rewrite !isLeap_spec. Z.div_mod_to_equations. lia.
  - split; [Z.div_mod_to_equations; lia|]. split; [Z.div_mod_to_equations; lia|].
    rewrite !isLeap_spec. Z.div_mod_to_equations. lia.
Qed.

Lemma daysIn_leap_mono (m y yy : Z) :
  (isLeap y = true -> isLeap yy = true) -> daysIn m y <= daysIn m yy.
Proof.
  intros H. unfold daysIn.
  destruct (Z.eqb_spec m 2) as [-> | _]; cbn [andb]; [|lia].
  destruct (isLeap y); [rewrite H by reflexivity; lia|].
  destruct (isLeap yy); unfold daysBeforeMonth, daysBefore; simpl; lia.
Qed.

Lemma Date_other_year (y yy m d h mi se : Z) :
  y <> yy -> Date yy m d h mi se 0 <> Date y m d h mi se 0.
Proof.
  intros Hne. unfold Date.
  assert (forall a, 0 <= (if isLeap a && (3 <=? m) then 1 else 0) <= 1) as Hadj
    by (intros a; destruct (isLeap a && (3 <=? m)); lia).
  pose proof (Hadj y). pose proof (Hadj yy).
  destruct (Z.lt_total y yy) as [Hlt | [-> | Hlt]]; [|congruence|];
    pose proof (daysSinceEpoch_gap _ _ Hlt); lia.
Qed.

Lemma year_range_conv (t : Time) (lo hi y : Z) :
  lo <= y < hi ->
  daysSinceEpoch y <= Unix t / 86400 < daysSinceEpoch (y + 1) ->
  Date lo 1 1 0 0 0 0 <= t < Date hi 1 1 0 0 0 0.
Proof.
  unfold Date, Unix. change (daysBeforeMonth (1 - 1)) with 0.
  replace (if isLeap lo && (3 <=? 1) then 1 else 0) with 0
    by (destruct (isLeap lo); reflexivity).
  replace (if isLeap hi && (3 <=? 1) then 1 else 0) with 0
    by (destruct (isLeap hi); reflexivity).
  intros Hy Hd.
  pose proof (daysSinceEpoch_mono lo y ltac:(lia)).
  pose proof (daysSinceEpoch_mono (y + 1) hi ltac:(lia)).
  Z.div_mod_to_equations. lia.
Qed.

Lemma ParseTime_asRFC850 (tz : Location) (t : Located) :
  fst (zoneOf t) = "UTC" ->
  Date 0 1 1 0 0 0 0 <= wallClock t < Date 10000 1 1 0 0 0 0 ->
  exists t',
    ParseTime tz (format.Format RFC850 t) = Some t' /\
    (t' = truncSecond (wallClock t)
     <-> Date 1969 1 1 0 0 0 0 <= wallClock t < Date 2069 1 1 0 0 0 0).
Proof.
  intros Hz Ht. unfold ParseTime, timeFormats, parseFirst.
  rewrite Format_wall, Hz.
  set (u := wallClock t) in *. cbv zeta.
  destruct (absDate (Unix u / 86400 + unixEpochDay)) as [[y m] d] eqn:Habs.
  destruct (civil_fields u y m d Habs)
    as (Hm & Hd & Hd32 & Hh & Hmi & Hse & Hwd & HDate & Hyr).
  pose proof (year_range u 0 10000 y Ht Hyr) as Hy.
  destruct (window_year y ltac:(lia)) as (Hyy & Hsame & Hleap).
  set (yy := if 69 <=? y mod 100 then y mod 100 + 1900 else y mod 100 + 2000) in *.
  rewrite (Parse_None tz TimeFormat).
  2: { cbn [chunks TimeFormat RFC850 formatChunks trailer].
       rewrite !append_assoc_. apply short_weekday_on_long. exact Hwd. }
  assert (1 <= d <= daysIn m yy) as Hd'
    by (pose proof (daysIn_leap_mono m y yy Hleap); lia).
  rewrite (Parse_of_fields tz RFC850 _ _
             (parseChunks_RFC850 _ y m d _ _ _ _ Hm ltac:(lia) Hh Hmi Hse Hwd
                ltac:(lia))
             eq_refl Hd' (or_introl eq_refl)).
  cbn [year month day hour min sec nsec civil]. fold yy.
  eexists. split; [reflexivity|]. unfold truncSecond. rewrite <- HDate.
  split.
  - intros E. destruct (Z.eq_dec y yy) as [Ey|Hne].
    + apply (year_range_conv u 1969 2069 y); [lia | exact Hyr].
    + exfalso. exact (Date_other_year y yy m d _ _ _ Hne E).
  - intros Hw. pose proof (year_range u 1969 2069 y Hw Hyr) as Hy'.
    rewrite (Hsame Hy'). reflexivity.
Qed.

(** *** The encoders of the tests, end to end *)

Lemma deadline_of_value (tz : Location) (src : Source) (name : string)
  (h : Handler) (req : Request) (w : World) (t : Time) :
  present src name req = true ->
  ParseTime tz (value src name req) = Some t ->
  writes (trace (adapter tz src name h req w)) = [] /\
  exists c,
    calls (trace (adapter tz src name h req w)) = [WithContext req c] /\
    context.Deadline (Context (WithContext req c))
    = Some (capped (context.Deadline (Context req)) t).
Proof.
  intros Hp Ht.
  destruct (valid_run_ex tz src name h req w t Hp Ht)
    as (c & cancel & s1 & r & wh & HW & _ & ->).
  destruct (WithDeadline_inv _ _ _ _ _ _ HW) as (_ & _ & _ & HD & _).
  split; [reflexivity|]. exists c. split; [reflexivity|]. exact HD.
Qed.

(** X8.  What [asTimeFormat] and [asANSIC] write for a time value is the
    wall clock of the value in its own Location, with no zone (the letters
    GMT of the HTTP-date are part of the layout, whatever the Location).
    For every value whose wall clock lies in the years 0 to 9999,
    [http.ParseTime] reads either encoding back as that wall clock in UTC,
    whatever the local zone of the process: the instant of the value cut
    to the whole second and moved by its zone offset, which is the instant
    written exactly when the offset is zero, as for the UTC values of the
    tests.  On a request whose field holds either encoding the adapter
    writes nothing and calls the handler once, with a context whose
    deadline is the instant read back, or the deadline of the incoming
    context when that one is earlier. *)
Theorem X8_http_date_and_ansic_round_trip (tz : Location) (t : Located) :
  Date 0 1 1 0 0 0 0 <= wallClock t < Date 10000 1 1 0 0 0 0 ->
  ParseTime tz (deadline_test.asTimeFormat t)
  = Some (addSec (truncSecond (instant t)) (snd (zoneOf t))) /\
  ParseTime tz (deadline_test.asANSIC t)
  = Some (addSec (truncSecond (instant t)) (snd (zoneOf t))) /\
  (addSec (truncSecond (instant t)) (snd (zoneOf t)) = truncSecond (instant t)
   <-> snd (zoneOf t) = 0) /\
  forall src name h req w,
    present src name req = true ->
    value src name req = deadline_test.asTimeFormat t \/
    value src name req = deadline_test.asANSIC t ->
    writes (trace (adapter tz src name h req w)) = [] /\
    exists c,
      calls (trace (adapter tz src name h req w)) = [WithContext req c] /\
      context.Deadline (Context (WithContext req c))
      = Some (capped (context.Deadline (Context req))
                (addSec (truncSecond (instant t)) (snd (zoneOf t)))).
Proof.
  intros Ht.
  pose proof (ParseTime_asTimeFormat tz t Ht) as H1.
  pose proof (ParseTime_asANSIC tz t Ht) as H2.
  rewrite truncSecond_wallClock in H1, H2.
  split; [exact H1|]. split; [exact H2|].
  split; [unfold addSec; lia|].
  intros src name h req w Hp Hv. apply deadline_of_value; [exact Hp|].
  destruct Hv as [-> | ->]; assumption.
Qed.

Lemma X8_http_date_and_ansic_round_trip_witness :
  ParseTime UTC (deadline_test.asTimeFormat (inUTC (deadline_test.now + 999)))
  = Some deadline_test.now /\
  ParseTime UTC (deadline_test.asANSIC (inUTC (deadline_test.now + 999)))
  = Some deadline_test.now.
Proof.
  destruct (X8_http_date_and_ansic_round_trip UTC
              (inUTC (deadline_test.now + 999)))
    as (H1 & H2 & _).
  - split; [vm_compute; discriminate | vm_compute; reflexivity].
  - split; [exact H1 | exact H2].
Defined.

(** X9.  For every time value held in UTC, as the [now] of the tests is,
    whose instant lies in the years 0 to 9999, what [asRFC850] writes is
    accepted by [http.ParseTime]; the instant read back is the one
    written, cut to the whole second, exactly when it lies in the years
    1969 to 2068, the two-digit year being read into that window; an
    instant outside it is read back in another century.  On a request
    whose field holds the encoding the adapter writes nothing and calls
    the handler once, with a context whose deadline is the instant read
    back, or the deadline of the incoming context when that one is
    earlier. *)
Theorem X9_rfc850_round_trip_window (tz : Location) (t : Located) :
  zoneOf t = ("UTC", 0) ->
  Date 0 1 1 0 0 0 0 <= instant t < Date 10000 1 1 0 0 0 0 ->
  exists t',
    ParseTime tz (deadline_test.asRFC850 t) = Some t' /\
    (t' = truncSecond (instant t)
     <-> Date 1969 1 1 0 0 0 0 <= instant t < Date 2069 1 1 0 0 0 0) /\
    forall src name h req w,
      present src name req = true ->
      value src name req = deadline_test.asRFC850 t ->
      writes (trace (adapter tz src name h req w)) = [] /\
      exists c,
        calls (trace (adapter tz src name h req w)) = [WithContext req c] /\
        context.Deadline (Context (WithContext req c))
        = Some (capped (context.Deadline (Context req)) t').
Proof.
  intros Hz Ht. pose proof (wallClock_UTC t Hz) as Hw0.
  assert (fst (zoneOf t) = "UTC") as Hn by (rewrite Hz; reflexivity).
  rewrite <- Hw0 in Ht.
  destruct (ParseTime_asRFC850 tz t Hn Ht) as (t' & HP & Hw).
  rewrite Hw0 in Hw.
  exists t'. split; [exact HP|]. split; [exact Hw|].
  intros src name h req w Hp Hv. apply deadline_of_value; [exact Hp|].
  rewrite Hv. exact HP.
Qed.

Lemma X9_rfc850_round_trip_window_witness :
  exists t',
    ParseTime UTC (deadline_test.asRFC850 (inUTC (Date 2070 1 1 0 0 0 0)))
    = Some t' /\
    t' <> truncSecond (Date 2070 1 1 0 0 0 0).
Proof.
  destruct (X9_rfc850_round_trip_window UTC (inUTC (Date 2070 1 1 0 0 0 0)))
    as (t' & HP & Hw & _).
  - reflexivity.
  - split; [vm_compute; discriminate | vm_compute; reflexivity].
  - exists t'. split; [exact HP|]. intros E. apply Hw in E.
    destruct E as [_ E]. vm_compute in E. discriminate.
Defined.

(** What the encoders write for the [now] of the tests, and for the same
    instant held in other Locations: the wall clock there, and for RFC 850
    the abbreviation of the zone, or its offset when it has none. *)
Example asRFC850_of_now :
  deadline_test.asRFC850 (inUTC deadline_test.now)
  = "Monday, 22-Jul-24 20:10:00 UTC" /\
  deadline_test.asTimeFormat (inUTC deadline_test.now) = fixtureTimeFormat /\
  deadline_test.asANSIC (inUTC deadline_test.now) = fixtureANSIC /\
  ParseTime UTC (deadline_test.asRFC850 (inUTC (Date 2070 1 1 0 0 0 0)))
  = Some (Date 1970 1 1 0 0 0 0).
Proof. vm_compute. repeat split; reflexivity. Qed.

Example encoders_in_other_zones :
  let cest := inLoc (FixedZone "CEST" 7200) deadline_test.now in
  let est := inLoc (FixedZone "EST" (-18000)) deadline_test.now in
  let ist := inLoc (FixedZone "" 19800) deadline_test.now in
  deadline_test.asTimeFormat cest = "Mon, 22 Jul 2024 22:10:00 GMT" /\
  ParseTime UTC (deadline_test.asTimeFormat cest)
  = Some (Date 2024 7 22 22 10 0 0) /\
  deadline_test.asANSIC est = "Mon Jul 22 15:10:00 2024" /\
  deadline_test.asRFC850 est = "Monday, 22-Jul-24 15:10:00 EST" /\
  ParseTime UTC (deadline_test.asRFC850 est) = Some (Date 2024 7 22 15 10 0 0) /\
  ParseTime UTC (deadline_test.asRFC850 est ++ "T")
  = Some (Date 2024 7 22 15 10 0 0) /\
  deadline_test.asRFC850 ist = "Tuesday, 23-Jul-24 01:40:00 +0530" /\
  ParseTime UTC (deadline_test.asRFC850 ist) = None.
Proof. vm_compute. repeat split; reflexivity. Qed.

(* ===================================================================== *)
(** ** The query string of a request                                      *)
(* ===================================================================== *)

Import url.


Lemma Cut_found (a b : string) (sep : ascii) :
  Contains a sep = false -> Cut (a ++ String sep b) sep = (a, b, true).
Proof.
  induction a as [|c a IH]; intros H.
  - change (Cut (String sep b) sep = ("", b, true)).
    simpl. rewrite Ascii.eqb_refl. reflexivity.
  - change (Cut (String c (a ++ String sep b)) sep = (String c a, b, true)).
    simpl in H. apply orb_false_elim in H as [Hc Ha].
    simpl. rewrite Hc, (IH Ha). reflexivity.
Qed.

Lemma Cut_not_found (a : string) (sep : ascii) :
  Contains a sep = false -> Cut a sep = (a, "", false).
Proof.
  induction a as [|c a IH]; intros H; [reflexivity|].
  simpl in H. apply orb_false_elim in H as [Hc Ha].
  simpl. rewrite Hc, (IH Ha). reflexivity.
Qed.

Lemma Contains_app (a b : string) (sep : ascii) :
  Contains (a ++ b) sep = Contains a sep || Contains b sep.
Proof.
  induction a as [|c a IH]; [reflexivity|].
  change (Contains (String c (a ++ b)) sep
          = Contains (String c a) sep || Contains b sep).
  simpl. rewrite IH, orb_assoc. reflexivity.
Qed.

Lemma QueryEscape_cons (c : ascii) (r : string) :
  wellFormed (QueryEscape (String c r)) = wellFormed (QueryEscape r) /\
  decode (QueryEscape (String c r)) = String c (decode (QueryEscape r)) /\
  Contains (QueryEscape (String c r)) "&" = Contains (QueryEscape r) "&" /\
  Contains (QueryEscape (String c r)) "=" = Contains (QueryEscape r) "=" /\
  Contains (QueryEscape (String c r)) ";" = Contains (QueryEscape r) ";".
Proof.
  destruct c as [[] [] [] [] [] [] [] []]; repeat split; reflexivity.
Qed.

Lemma QueryUnescape_QueryEscape (s : string) :
  QueryUnescape (QueryEscape s) = Some s.
Proof.
  unfold QueryUnescape.
  assert (wellFormed (QueryEscape s) = true /\ decode (QueryEscape s) = s)
    as [-> ->]; [|reflexivity].
  induction s as [|c r [IH1 IH2]]; [split; reflexivity|].
  destruct (QueryEscape_cons c r) as (-> & -> & _). rewrite IH1, IH2. auto.
Qed.

Lemma QueryEscape_plain (s : string) :
  Contains (QueryEscape s) "&" = false /\
  Contains (QueryEscape s) "=" = false /\
  Contains (QueryEscape s) ";" = false.
Proof.
  induction s as [|c r (IH1 & IH2 & IH3)]; [repeat split; reflexivity|].
  destruct (QueryEscape_cons c r) as (_ & _ & -> & -> & ->). auto.
Qed.

Lemma parseQuery_step (fuel : nat) (m : gmap string (list string))
  (query : string) :
  parseQuery (S fuel) m query
  = if String.eqb query "" then m
    else
      let '(key, query, _) := Cut query "&" in
      if Contains key ";" then parseQuery fuel m query
      else if String.eqb key "" then parseQuery fuel m query
      else
        let '(key, value, _) := Cut key "=" in
        match QueryUnescape key with
        | None => parseQuery fuel m query
        | Some key =>
            match QueryUnescape value with
            | None => parseQuery fuel m query
            | Some value =>
                parseQuery fuel
                  (<[key := (default [] (m !! key) ++ [value])%list]> m) query
            end
        end.
Proof. reflexivity. Qed.

Lemma parseQuery_done (fuel : nat) (m : gmap string (list string)) :
  parseQuery fuel m "" = m.
Proof. destruct fuel; reflexivity. Qed.

Lemma pair_not_empty (a b : string) :
  String.eqb (a ++ String "=" b) "" = false.
Proof. destruct a; reflexivity. Qed.

(** One well-formed pair. *)
Lemma Query_pair (k v k' v' : string) :
  Contains k "&" = false -> Contains k "=" = false -> Contains k ";" = false ->
  Contains v "&" = false -> Contains v ";" = false ->
  QueryUnescape k = Some k' -> QueryUnescape v = Some v' ->
  Query (k ++ String "=" v) = {[ k' := [v'] ]}.
Proof.
  intros Hk1 Hk2 Hk3 Hv1 Hv3 Ek Ev. unfold Query.
  rewrite parseQuery_step, pair_not_empty.
  rewrite Cut_not_found
    by (rewrite Contains_app; simpl; rewrite Hk1, Hv1; reflexivity).
  rewrite Contains_app. simpl. rewrite Hk3, Hv3. simpl.
  rewrite pair_not_empty, (Cut_found k v "=" Hk2), Ek, Ev, parseQuery_done.
  rewrite lookup_empty. reflexivity.
Qed.

(** One pair that the loop skips. *)
Lemma Query_skipped (k v : string) :
  Contains k "&" = false -> Contains k "=" = false ->
  Contains v "&" = false ->
  Contains k ";" = true \/ Contains v ";" = true \/
  QueryUnescape k = None \/ QueryUnescape v = None ->
  Query (k ++ String "=" v) = ∅.
Proof.
  intros Hk1 Hk2 Hv1 Hbad. unfold Query.
  rewrite parseQuery_step, pair_not_empty.
  rewrite Cut_not_found
    by (rewrite Contains_app; simpl; rewrite Hk1, Hv1; reflexivity).
  rewrite Contains_app. simpl.
  destruct (Contains k ";") eqn:Hk3; [simpl; apply parseQuery_done|].
  destruct (Contains v ";") eqn:Hv3; [simpl; apply parseQuery_done|].
  simpl. rewrite pair_not_empty, (Cut_found k v "=" Hk2).
  destruct Hbad as [?|[?|[Ek|Ev]]]; try discriminate.
  - rewrite Ek. apply parseQuery_done.
  - rewrite Ev. destruct (QueryUnescape k); apply parseQuery_done.
Qed.

Lemma Cut_after_le (q : string) (sep : ascii) :
  (len (Cut q sep).1.2 <= len q)%nat.
Proof.
  induction q as [|c r IH]; [simpl; lia|].
  simpl. destruct (Ascii.eqb c sep); [simpl; unfold len; simpl; lia|].
  destruct (Cut r sep) as [[b a] f]. simpl in *. unfold len in *. simpl. lia.
Qed.

Lemma Cut_after_lt (q : string) (sep : ascii) :
  String.eqb q "" = false -> (len (Cut q sep).1.2 < len q)%nat.
Proof.
  destruct q as [|c r]; [discriminate|]. intros _.
  pose proof (Cut_after_le r sep) as H.
  simpl. destruct (Ascii.eqb c sep); [simpl; unfold len; simpl; lia|].
  destruct (Cut r sep) as [[b a] f]. simpl in *. unfold len in *. simpl. lia.
Qed.

Lemma parseQuery_fuel (f1 : nat) :
  forall (f2 : nat) (m : gmap string (list string)) (q : string),
    (len q < f1)%nat -> (len q < f2)%nat ->
    parseQuery f1 m q = parseQuery f2 m q.
Proof.
  induction f1 as [|f1 IH]; intros f2 m q H1 H2; [lia|].
  destruct f2 as [|f2]; [lia|].
  rewrite !parseQuery_step.
  destruct (String.eqb q "") eqn:Hq; [reflexivity|].
  pose proof (Cut_after_lt q "&" Hq) as Hlt.
  destruct (Cut q "&") as [[key query] found]. simpl in Hlt.
  assert (forall m', parseQuery f1 m' query = parseQuery f2 m' query) as Hrec
    by (intros m'; apply IH; lia).
  destruct (Contains key ";"); [apply Hrec|].
  destruct (String.eqb key ""); [apply Hrec|].
  destruct (Cut key "=") as [[key' val] found'].
  destruct (QueryUnescape key'); [|apply Hrec].
  destruct (QueryUnescape val); apply Hrec.
Qed.

Lemma len_app (a b : string) : len (a ++ b) = (len a + len b)%nat.
Proof.
  unfold len. induction a as [|c a IH]; [reflexivity|].
  change (String.length (String c (a ++ b)) = S (String.length a) + String.length b)%nat.
  simpl. rewrite IH. reflexivity.
Qed.

(** A pair that the loop skips, in front of more pairs. *)
Lemma Query_skipped_front (k v rest : string) :
  Contains k "&" = false -> Contains k "=" = false ->
  Contains v "&" = false ->
  Contains k ";" = true \/ Contains v ";" = true \/
  QueryUnescape k = None \/ QueryUnescape v = None ->
  Query ((k ++ String "=" v) ++ String "&" rest) = Query rest.
Proof.
  intros Hk1 Hk2 Hv1 Hbad. unfold Query.
  assert (Contains (k ++ String "=" v) "&" = false) as Hp
    by (rewrite Contains_app; simpl; rewrite Hk1, Hv1; reflexivity).
  rewrite parseQuery_step.
  assert (String.eqb ((k ++ String "=" v) ++ String "&" rest) "" = false) as ->
    by (destruct k; reflexivity).
  rewrite (Cut_found _ rest "&" Hp).
  assert (parseQuery (len ((k ++ String "=" v) ++ String "&" rest)) ∅ rest
          = parseQuery (S (len rest)) ∅ rest) as Hfuel.
  { apply parseQuery_fuel; [|lia]. rewrite len_app. unfold len. simpl. lia. }
  rewrite Contains_app. simpl.
  destruct (Contains k ";") eqn:Hk3; [exact Hfuel|].
  destruct (Contains v ";") eqn:Hv3; [exact Hfuel|].
  simpl. rewrite pair_not_empty, (Cut_found k v "=" Hk2).
  destruct Hbad as [?|[?|[Ek|Ev]]]; try discriminate.
  - rewrite Ek. exact Hfuel.
  - rewrite Ev. destruct (QueryUnescape k); exact Hfuel.
Qed.

(** X10.  The query string that [Values.Encode] writes for one key and
    one value, both escaped with [QueryEscape], is parsed back by
    [URL.Query] to exactly that key with exactly that value; so in query
    mode the adapter finds the field present under the name and reads the
    text as the client had it, spaces, commas and colons included, and
    finds no other field. *)
Theorem X10_query_encoding_round_trip (name text : string)
  (hdr : gmap string (list string)) (c : option context.Context) :
  let raw := (QueryEscape name ++ String "=" (QueryEscape text))%string in
  let req := {| Header := hdr; URL_ := {| http.Query := url.Query raw |};
                ctx := c |} in
  url.Query raw = {[ name := [text] ]} /\
  present InQuery name req = true /\
  value InQuery name req = text /\
  (forall other, other <> name -> present InQuery other req = false).
Proof.
  intros raw req.
  destruct (QueryEscape_plain name) as (Hk1 & Hk2 & Hk3).
  destruct (QueryEscape_plain text) as (Hv1 & _ & Hv3).
  assert (url.Query raw = {[ name := [text] ]}) as HQ
    by (apply Query_pair; auto using QueryUnescape_QueryEscape).
  split; [exact HQ|].
  unfold req; simpl; unfold Values_Has, Values_Get; rewrite HQ.
  split; [rewrite lookup_singleton_eq; reflexivity|].
  split; [rewrite lookup_singleton_eq; reflexivity|].
  intros other Hne. rewrite lookup_singleton_ne by congruence. reflexivity.
Qed.

(** X11.  A pair of the query string that has a semicolon or a malformed
    percent escape is dropped by [URL.Query], which ignores the error: the
    query reads as if the pair were not there.  When it is the only pair
    no field is present, and [FromQueryParams] hands the request to the
    handler as it is, without a deadline and without a 400. *)
Theorem X11_malformed_query_pair_is_dropped (tz : Location) (name : string)
  (h : Handler) (hdr : gmap string (list string))
  (c : option context.Context) (k v rest : string) :
  Contains k "&" = false -> Contains k "=" = false ->
  Contains v "&" = false ->
  Contains k ";" = true \/ Contains v ";" = true \/
  QueryUnescape k = None \/ QueryUnescape v = None ->
  url.Query ((k ++ String "=" v) ++ String "&" rest) = url.Query rest /\
  url.Query (k ++ String "=" v) = ∅ /\
  let req := {| Header := hdr;
                URL_ := {| http.Query := url.Query (k ++ String "=" v) |};
                ctx := c |} in
  forall w, FromQueryParams tz name h req w = ServeHTTP h req w.
Proof.
  intros Hk1 Hk2 Hv1 Hbad.
  pose proof (Query_skipped k v Hk1 Hk2 Hv1 Hbad) as HQ.
  split; [apply Query_skipped_front; assumption|]. split; [exact HQ|].
  intros req w. unfold FromQueryParams, req. simpl. unfold Values_Has.
  rewrite HQ, lookup_empty. reflexivity.
Qed.

Lemma X11_malformed_query_pair_is_dropped_witness :
  url.Query ("mtpdeadline=Mon%2&mtpdeadline=" ++ QueryEscape fixtureANSIC)
  = url.Query ("mtpdeadline=" ++ QueryEscape fixtureANSIC) /\
  url.Query "mtpdeadline=Mon%2" = ∅.
Proof.
  destruct (X11_malformed_query_pair_is_dropped UTC "mtpdeadline" spy ∅ None
              "mtpdeadline" "Mon%2" ("mtpdeadline=" ++ QueryEscape fixtureANSIC))
    as (H1 & H2 & _).
  - reflexivity.
  - reflexivity.
  - reflexivity.
  - right. right. right. reflexivity.
  - split; [exact H1 | exact H2].
Defined.


(** *** Text after an encoding *)

Section Trailing.
Variables (zn : string) (zo : Z) (y m d h mi se wd : Z).
Hypotheses (Hm : 1 <= m < 13) (Hd : 0 <= d < 32) (Hh : 0 <= h < 24)
  (Hmi : 0 <= mi < 60) (Hse : 0 <= se < 60) (Hwd : 0 <= wd < 7).

Lemma parseChunks_TimeFormat_then (tl : string) :
  0 <= y < 10000 ->
  parseChunks (chunks TimeFormat)
    (formatChunks zn zo (chunks TimeFormat) y m d h mi se wd ++ String " " tl)
    fields0
  = Some (civil y m d h mi se false, String " " tl).
Proof.
  intros Hy. cbn [chunks TimeFormat formatChunks trailer].
  rewrite !append_assoc_.
  rewrite step_weekday by exact Hwd.
  rewrite step_zero_day by (reflexivity || exact Hd).
  rewrite step_month by (auto || exact Hm).
  rewrite step_long_year by exact Hy.
  rewrite step_hour by exact Hh.
  rewrite step_minute by exact Hmi.
  rewrite step_second by (exact Hse || (eexists; reflexivity)).
  reflexivity.
Qed.

Lemma parseChunks_ANSIC_then (tl : string) :
  0 <= y < 10000 ->
  parseChunks (chunks ANSIC)
    (formatChunks zn zo (chunks ANSIC) y m d h mi se wd ++ tl) fields0
  = Some (civil y m d h mi se false, tl).
Proof.
  intros Hy. cbn [chunks ANSIC formatChunks trailer].
  rewrite !append_assoc_.
  rewrite step_weekday by exact Hwd.
  rewrite step_month by (auto || exact Hm).
  rewrite step_under_day by (exact Hd || (eexists; reflexivity)).
  rewrite step_hour by exact Hh.
  rewrite step_minute by exact Hmi.
  rewrite step_second by (exact Hse || (eexists; reflexivity)).
  rewrite step_long_year by exact Hy.
  reflexivity.
Qed.

Lemma parseChunks_RFC850_then (tl : string) :
  0 <= y ->
  parseChunks (chunks RFC850)
    (formatChunks "UTC" zo (chunks RFC850) y m d h mi se wd ++ tl)
    fields0
  = Some (civil (if 69 <=? y mod 100 then y mod 100 + 1900 else y mod 100 + 2000)
                m d h mi se true, tl).
Proof.
  intros Hy. cbn [chunks RFC850 formatChunks trailer].
  rewrite !append_assoc_.
  rewrite step_long_weekday.
  2: exact Hwd.
  2: { unfold formatStd at 1. rewrite appendInt_2 by lia.
       eexists _, _, _, _. reflexivity. }
  rewrite step_zero_day by (reflexivity || exact Hd).
  rewrite step_month by (auto || exact Hm).
  rewrite step_year2 by exact Hy.
  rewrite step_hour by exact Hh.
  rewrite step_minute by exact Hmi.
  rewrite step_second by (exact Hse || (eexists; reflexivity)).
  reflexivity.
Qed.

End Trailing.

Lemma Parse_extra_text (tz : Location) (layout : Layout) (value v' : string)
  (F : fields) (c : ascii) (g : string) :
  parseChunks (chunks layout) value fields0 = Some (F, v') ->
  skip v' (trailer layout) = Some (String c g) ->
  Parse tz layout value = None.
Proof. intros HP HS. unfold Parse. rewrite HP, HS. reflexivity. Qed.

Section MismatchMore.
Variables (zn : string) (zo : Z) (y m d h mi se wd : Z) (cs : list (string * std)) (f : fields).

(** An HTTP-date encoding under the layouts tried after it. *)
Lemma long_weekday_on_short_comma (X : string) :
  0 <= wd < 7 ->
  parseChunks (("", stdLongWeekDay) :: cs)
    ("" ++ formatStd zn zo stdWeekDay y m d h mi se wd ++ String "," X) f = None.
Proof.
  revert wd. apply (range_cases 7). intros i Hi.
  enum_nat i ltac:(destruct X as [|c1 [|c2 [|c3 [|c4 [|c5 X]]]]]; reflexivity).
Qed.

Lemma short_weekday_then_space (X : string) :
  0 <= wd < 7 ->
  parseChunks (("", stdWeekDay) :: (" ", stdMonth) :: cs)
    ("" ++ formatStd zn zo stdWeekDay y m d h mi se wd ++ String "," X) f = None.
Proof.
  revert wd. apply (range_cases 7). intros i Hi.
  enum_nat i ltac:(reflexivity).
Qed.

(** An RFC 850 encoding under the layout tried after it. *)
Lemma short_weekday_on_long_space (rest : string) :
  0 <= wd < 7 ->
  parseChunks (("", stdWeekDay) :: (" ", stdMonth) :: cs)
    ("" ++ formatStd zn zo stdLongWeekDay y m d h mi se wd ++ rest) f = None.
Proof.
  revert wd. apply (range_cases 7). intros i Hi.
  enum_nat i ltac:(reflexivity).
Qed.

End MismatchMore.

Lemma ParseTime_encoding_then_text (tz : Location) (t : Located)
  (c : ascii) (g : string) :
  Date 0 1 1 0 0 0 0 <= wallClock t < Date 10000 1 1 0 0 0 0 ->
  ParseTime tz (Format TimeFormat t ++ String c g) = None /\
  (fst (zoneOf t) = "UTC" ->
   ParseTime tz (Format RFC850 t ++ String c g) = None) /\
  ParseTime tz (Format ANSIC t ++ String c g) = None.
Proof.
  intros Ht. unfold ParseTime, timeFormats, parseFirst.
  rewrite !Format_wall. set (u := wallClock t) in *. cbv zeta.
  destruct (absDate (Unix u / 86400 + unixEpochDay)) as [[y m] d] eqn:Habs.
  destruct (civil_fields u y m d Habs)
    as (Hm & Hd & Hd32 & Hh & Hmi & Hse & Hwd & HDate & Hyr).
  pose proof (year_range u 0 10000 y Ht Hyr) as Hy.
  assert (0 <= d < 32) as Hd0 by lia.
  rewrite !append_assoc_.
  split; [|split].
  - change (trailer TimeFormat ++ String c g)
      with (String " " ("GMT" ++ String c g)).
    rewrite (Parse_extra_text tz TimeFormat _ _ _ c g
               (parseChunks_TimeFormat_then _ _ y m d _ _ _ _ Hm Hd0 Hh Hmi Hse
                  Hwd ("GMT" ++ String c g) Hy) eq_refl).
    rewrite (Parse_None tz RFC850).
    2: { cbn [chunks RFC850 TimeFormat formatChunks trailer].
         rewrite !append_assoc_. apply long_weekday_on_short_comma. exact Hwd. }
    rewrite (Parse_None tz ANSIC).
    2: { cbn [chunks ANSIC TimeFormat formatChunks trailer].
         rewrite !append_assoc_. apply short_weekday_then_space. exact Hwd. }
    reflexivity.
  - intros Hz. rewrite Hz.
    change (trailer RFC850 ++ String c g) with (String c g).
    rewrite (Parse_None tz TimeFormat).
    2: { cbn [chunks TimeFormat RFC850 formatChunks trailer].
         rewrite !append_assoc_. apply short_weekday_on_long. exact Hwd. }
    rewrite (Parse_extra_text tz RFC850 _ _ _ c g
               (parseChunks_RFC850_then _ y m d _ _ _ _ Hm Hd0 Hh Hmi Hse Hwd
                  (String c g) ltac:(lia)) eq_refl).
    rewrite (Parse_None tz ANSIC).
    2: { cbn [chunks ANSIC RFC850 formatChunks trailer].
         rewrite !append_assoc_. apply short_weekday_on_long_space. exact Hwd. }
    reflexivity.
  - change (trailer ANSIC ++ String c g) with (String c g).
    rewrite (Parse_None tz TimeFormat).
    2: { cbn [chunks TimeFormat ANSIC formatChunks trailer].
         rewrite !append_assoc_. apply short_weekday_then_comma. exact Hwd. }
    rewrite (Parse_None tz RFC850).
    2: { cbn [chunks RFC850 ANSIC formatChunks trailer].
         rewrite !append_assoc_. apply long_weekday_on_short. exact Hwd. }
    rewrite (Parse_extra_text tz ANSIC _ _ _ c g
               (parseChunks_ANSIC_then _ _ y m d _ _ _ _ Hm Hd0 Hh Hmi Hse Hwd
                  (String c g) Hy) eq_refl).
    reflexivity.
Qed.

(** X12.  Text after an encoding.  Take a time value whose wall clock, in
    the Location it is held in, lies in the years 0 to 9999.  Whatever
    non-empty text follows what [asTimeFormat] or [asANSIC] write for it,
    and whatever non-empty text follows what [asRFC850] writes for it when
    its zone abbreviation is UTC (as for the values of the tests),
    [ParseTime] refuses the value under all three layouts, in every local
    zone of the process; the adapter then answers 400 and returns without
    calling the wrapped handler or deriving a context.  (After another
    abbreviation a letter can make a longer, valid abbreviation.) *)
Theorem X12_text_after_an_encoding_is_rejected (tz : Location) (src : Source)
  (name : string) (h : Handler) (req : Request) (w : World)
  (t : Located) (g : string) :
  Date 0 1 1 0 0 0 0 <= wallClock t < Date 10000 1 1 0 0 0 0 ->
  g <> "" ->
  present src name req = true ->
  value src name req = deadline_test.asTimeFormat t ++ g \/
  (fst (zoneOf t) = "UTC" /\
   value src name req = deadline_test.asRFC850 t ++ g) \/
  value src name req = deadline_test.asANSIC t ++ g ->
  ParseTime tz (value src name req) = None /\
  adapter tz src name h req w
  = (Returned tt,
     {| response := (response w ++ [OpWriteHeader StatusBadRequest])%list;
        contexts := contexts w |},
     [Wrote StatusBadRequest]).
Proof.
  intros Ht Hg Hp Hv.
  assert (ParseTime tz (value src name req) = None) as HN.
  { destruct g as [|c g]; [congruence|].
    destruct (ParseTime_encoding_then_text tz t c g Ht) as (H1 & H2 & H3).
    destruct Hv as [-> | [[Hz ->] | ->]]; [exact H1 | exact (H2 Hz) | exact H3]. }
  split; [exact HN|]. exact (rejecting_run tz src name h req w Hp HN).
Qed.

Lemma X12_text_after_an_encoding_is_rejected_witness :
  ParseTime UTC
    (value InQuery "mtpdeadline"
       (queryRequest "mtpdeadline" "Monday, 22-Jul-24 20:10:00 UTCgarbage" None))
  = None /\
  adapter UTC InQuery "mtpdeadline" spy
    (queryRequest "mtpdeadline" "Monday, 22-Jul-24 20:10:00 UTCgarbage" None)
    world0
  = (Returned tt,
     {| response := (response world0 ++ [OpWriteHeader StatusBadRequest])%list;
        contexts := contexts world0 |},
     [Wrote StatusBadRequest]).
Proof.
  apply (X12_text_after_an_encoding_is_rejected UTC InQuery "mtpdeadline" spy
           (queryRequest "mtpdeadline" "Monday, 22-Jul-24 20:10:00 UTCgarbage"
              None)
           world0 (inUTC deadline_test.now) "garbage").
  - vm_compute. split; [discriminate | reflexivity].
  - discriminate.
  - reflexivity.
  - right; left. split; [reflexivity | vm_compute; reflexivity].
Defined.
